(** * Verification of [src/scripts/upcoming.js]

    The script reconciles the launch manifest of the subreddit wiki with the
    upcoming launches of the [launch] collection.  This development embeds
    the script shallowly and proves properties of its date classification
    cascade, of its launch site and time zone selection, of the flight
    numbers it assigns and of the final report.

    Conventions of the embedding:
    - a JavaScript string is a [string] / [list ascii]; a character stands
      for one code unit below 256;
    - JavaScript numbers that hold flight numbers and match scores are
      integers of [Z];
    - [undefined] and [null] are [None] of an [option];
    - a [TypeError] raised inside the script is [None] of the result of a
      step, and is reported as the outcome [Threw] of a run;
    - the libraries the script calls ([fuzzball], [moment-timezone], the
      answers of the database to the update operations) are variables of a
      section. *)

From Stdlib Require Import Ascii String DecimalString.
From stdpp Require Import base numbers list gmap strings sorting.

Local Open Scope Z_scope.

(** ** Characters and character classes *)

Module Chars.

Definition code (c : ascii) : N := N_of_ascii c.

Definition in_range (lo hi c : ascii) : bool :=
  (code lo <=? code c)%N && (code c <=? code hi)%N.

(** [Canonicalize] of the regular expression semantics under the [i]
    flag, on the characters the patterns of the script mention: a lower
    case Latin letter is compared through its upper case form.  No
    character outside [a-z] has an upper case form inside [A-Z]. *)
Definition canonicalize (c : ascii) : ascii :=
  if in_range "a" "z" c then ascii_of_N (code c - 32) else c.

(** [[0-9]] *)
Definition digit (c : ascii) : bool := in_range "0" "9" c.

(** [[a-z]] under the [i] flag *)
Definition letter_i (c : ascii) : bool := in_range "A" "Z" (canonicalize c).

(** a literal character under the [i] flag *)
Definition chr_i (x c : ascii) : bool :=
  Ascii.eqb (canonicalize c) (canonicalize x).

(** [\s]: the white space and line terminator code units below 256 *)
Definition space (c : ascii) : bool :=
  let n := code c in
  (n =? 9)%N || (n =? 10)%N || (n =? 11)%N || (n =? 12)%N
  || (n =? 13)%N || (n =? 32)%N || (n =? 160)%N.

(** a literal character, case sensitive *)
Definition chr (x c : ascii) : bool := Ascii.eqb c x.

End Chars.

(** ** Regular expressions

    The fragment of the regular expression language the script uses:
    character classes, sequence, alternation and bounded repetition.  All
    seven patterns are anchored at both ends, so [RegExp.prototype.test]
    is membership of the whole string. *)

Module Regex.

Inductive regex : Type :=
| Eps
| Class (p : ascii → bool)
| Seq (r1 r2 : regex)
| Alt (r1 r2 : regex)
| Rep (r : regex) (lo hi : nat).

Definition cont := list ascii → bool.

Fixpoint rep_exact (step : list ascii → cont → bool) (n : nat)
    (s : list ascii) (k : cont) : bool :=
  match n with
  | O => k s
  | S n' => step s (λ s', rep_exact step n' s' k)
  end.

Fixpoint rep_upto (step : list ascii → cont → bool) (n : nat)
    (s : list ascii) (k : cont) : bool :=
  match n with
  | O => k s
  | S n' => step s (λ s', rep_upto step n' s' k) || k s
  end.

(** Backtracking matcher in continuation passing style: [exec r s k]
    holds when some prefix of [s] matches [r] and the rest is accepted by
    [k]. *)
Fixpoint exec (r : regex) (s : list ascii) (k : cont) : bool :=
  match r with
  | Eps => k s
  | Class p =>
      match s with
      | c :: s' => p c && k s'
      | [] => false
      end
  | Seq r1 r2 => exec r1 s (λ s', exec r2 s' k)
  | Alt r1 r2 => exec r1 s k || exec r2 s k
  | Rep r lo hi =>
      rep_exact (exec r) lo s (λ s', rep_upto (exec r) (hi - lo) s' k)
  end.

Definition at_end (s : list ascii) : bool :=
  match s with [] => true | _ => false end.

(** [/^r$/.test(s)] *)
Definition test (r : regex) (s : string) : bool :=
  exec r (list_ascii_of_string s) at_end.

(** a literal word under the [i] flag *)
Fixpoint word_i (w : list ascii) : regex :=
  match w with
  | [] => Eps
  | c :: w' => Seq (Class (Chars.chr_i c)) (word_i w')
  end.

(** The language of a pattern.  A quantifier [{lo,hi}] of the script has
    [lo ≤ hi]; the matcher repeats at least [lo] times whatever [hi] is. *)
Fixpoint lang (r : regex) (s : list ascii) : Prop :=
  match r with
  | Eps => s = []
  | Class p => ∃ c, s = [c] ∧ p c = true
  | Seq r1 r2 => ∃ s1 s2, s = s1 ++ s2 ∧ lang r1 s1 ∧ lang r2 s2
  | Alt r1 r2 => lang r1 s ∨ lang r2 s
  | Rep r lo hi =>
      ∃ ss, (lo ≤ length ss ≤ lo `max` hi)%nat ∧ s = concat ss
            ∧ Forall (lang r) ss
  end.

End Regex.

(** ** The patterns of the script *)

Module Patterns.
Import Chars Regex.

Definition digits (lo hi : nat) : regex := Rep (Class digit) lo hi.
Definition letters (lo hi : nat) : regex := Rep (Class letter_i) lo hi.
Definition ws : regex := Class space.
Definition lit (w : string) : regex := word_i (list_ascii_of_string w).
Definition sym (c : ascii) : regex := Class (chr c).

(** [([a-z]{3}|[a-z]{3,9})] *)
Definition month_name : regex := Alt (letters 3 3) (letters 3 9).

(** [(\[[0-9]{2}:[0-9]{2}\]|[0-9]{2}:[0-9]{2})] *)
Definition clock : regex :=
  Alt (Seq (sym "[") (Seq (digits 2 2) (Seq (sym ":") (Seq (digits 2 2) (sym "]")))))
      (Seq (digits 2 2) (Seq (sym ":") (digits 2 2))).

(** [/^[0-9]{4}\s([a-z]{3}|[a-z]{3,9})\s[0-9]{1,2}\s(\[[0-9]{2}:[0-9]{2}\]|[0-9]{2}:[0-9]{2})$/i] *)
Definition hour : regex :=
  Seq (digits 4 4) (Seq ws (Seq month_name (Seq ws (Seq (digits 1 2) (Seq ws clock))))).

(** [/^[0-9]{4}\s([a-z]{3}|[a-z]{3,9})\s[0-9]{1,2}$/i] *)
Definition day : regex :=
  Seq (digits 4 4) (Seq ws (Seq month_name (Seq ws (digits 1 2)))).

(** [/^[0-9]{4}\s([a-z]{3}|[a-z]{3,9})$/i] *)
Definition month : regex :=
  Seq (digits 4 4) (Seq ws month_name).

(** [/^[0-9]{4}$/i] *)
Definition year : regex := digits 4 4.

(** [/^[0-9]{4}\sTBD$/i] *)
Definition year_tbd : regex :=
  Seq (digits 4 4) (Seq ws (lit "TBD")).

(** [/^[0-9]{4}\s([a-z]{3}|[a-z]{3,9})\sTBD$/i] *)
Definition month_tbd : regex :=
  Seq (digits 4 4) (Seq ws (Seq month_name (Seq ws (lit "TBD")))).

(** [(early|mid|late)] *)
Definition vague : regex := Alt (lit "early") (Alt (lit "mid") (lit "late")).

(** [/^[0-9]{4}\s(early|mid|late)\s([a-z]{3}|[a-z]{3,9})$/i] *)
Definition month_vague : regex :=
  Seq (digits 4 4) (Seq ws (Seq vague (Seq ws month_name))).

End Patterns.

(** ** String operations of the script *)

Module Str.

Fixpoint starts_with (p s : list ascii) : bool :=
  match p, s with
  | [], _ => true
  | a :: p', b :: s' => Ascii.eqb b a && starts_with p' s'
  | _ :: _, [] => false
  end.

Fixpoint includes_list (p s : list ascii) : bool :=
  starts_with p s ||
  match s with
  | [] => false
  | _ :: s' => includes_list p s'
  end.

(** [s.includes(p)] *)
Definition includes (s p : string) : bool :=
  includes_list (list_ascii_of_string p) (list_ascii_of_string s).

Fixpoint replace_list (p r s : list ascii) : list ascii :=
  if starts_with p s then r ++ drop (length p) s
  else match s with
       | [] => []
       | c :: s' => c :: replace_list p r s'
       end.

(** [s.replace(p, r)] for a string pattern [p]: the first occurrence. *)
Definition replace (s p r : string) : string :=
  string_of_list_ascii
    (replace_list (list_ascii_of_string p) (list_ascii_of_string r)
       (list_ascii_of_string s)).

Fixpoint starts_with_i (p s : list ascii) : bool :=
  match p, s with
  | [], _ => true
  | a :: p', b :: s' => Chars.chr_i a b && starts_with_i p' s'
  | _ :: _, [] => false
  end.

Definition vague_prefix (s : list ascii) : option nat :=
  if starts_with_i (list_ascii_of_string "early") s then Some 5%nat
  else if starts_with_i (list_ascii_of_string "mid") s then Some 3%nat
  else if starts_with_i (list_ascii_of_string "late") s then Some 4%nat
  else None.

Fixpoint strip_vague_list (s : list ascii) : list ascii :=
  match vague_prefix s with
  | Some n => drop n s
  | None =>
      match s with
      | [] => []
      | c :: s' => c :: strip_vague_list s'
      end
  end.

(** [s.replace(/(early|mid|late)/i, '')]: the leftmost match, the
    alternatives tried in their order. *)
Definition strip_vague (s : string) : string :=
  string_of_list_ascii (strip_vague_list (list_ascii_of_string s)).

(** [s.split(sep)] for a one character separator. *)
Fixpoint split_list (sep : ascii) (cur : list ascii) (s : list ascii)
    : list (list ascii) :=
  match s with
  | [] => [reverse cur]
  | c :: s' =>
      if Ascii.eqb c sep then reverse cur :: split_list sep [] s'
      else split_list sep (c :: cur) s'
  end.

Definition split (s : string) (sep : ascii) : list string :=
  string_of_list_ascii <$> split_list sep [] (list_ascii_of_string s).

End Str.

(** ** The script *)

Module Doc.
(** A document of the [launch] collection, reduced to the fields the
    script reads: [upcoming], [flight_number],
    [rocket.second_stage.payloads[0].payload_id] and
    [launch_site.site_id]. *)
Record launch : Type := mk {
  upcoming : bool;
  flight_number : Z;
  payload_id : string;
  site_id : option string
}.
End Doc.

Module Upcoming.
Import Regex Patterns.

(** *** The date classification cascade (lines 96 to 153) *)

(** The branches of the cascade, in the order of the source. *)
Inductive branch : Type :=
| B_quarter | B_h1 | B_h2 | B_year_tbd | B_year
| B_month_tbd | B_month_vague | B_month | B_day | B_hour.

Definition all_branches : list branch :=
  [B_quarter; B_h1; B_h2; B_year_tbd; B_year;
   B_month_tbd; B_month_vague; B_month; B_day; B_hour].

(** The condition that guards a branch. *)
Definition branch_test (b : branch) (mdate : string) : bool :=
  match b with
  | B_quarter => Str.includes mdate "Q"
  | B_h1 => Str.includes mdate "H1"
  | B_h2 => Str.includes mdate "H2"
  | B_year_tbd => test year_tbd mdate
  | B_year => test year mdate
  | B_month_tbd => test month_tbd mdate
  | B_month_vague => test month_vague mdate
  | B_month => test month mdate
  | B_day => test day mdate
  | B_hour => test hour mdate
  end.

(** The [if ... else if ...] chain; [None] is the final [else]. *)
Definition select_branch (mdate : string) : option branch :=
  if Str.includes mdate "Q" then Some B_quarter
  else if Str.includes mdate "H1" then Some B_h1
  else if Str.includes mdate "H2" then Some B_h2
  else if test year_tbd mdate then Some B_year_tbd
  else if test year mdate then Some B_year
  else if test month_tbd mdate then Some B_month_tbd
  else if test month_vague mdate then Some B_month_vague
  else if test month mdate then Some B_month
  else if test day mdate then Some B_day
  else if test hour mdate then Some B_hour
  else None.

(** What a branch assigns: the rewritten [mdate], [precision[manifest_index]],
    [tbd] and [is_tentative]. *)
Record classified : Type := mk_classified {
  c_mdate : string;
  c_precision : string;
  c_tbd : bool;
  c_is_tentative : bool
}.

Definition branch_body (b : branch) (mdate : string) : classified :=
  match b with
  | B_quarter => mk_classified (Str.replace mdate "Q" "") "quarter" true true
  | B_h1 => mk_classified (Str.replace mdate "H1" "1") "half" true true
  | B_h2 => mk_classified (Str.replace mdate "H2" "3") "half" true true
  | B_year_tbd => mk_classified mdate "year" true true
  | B_year => mk_classified mdate "year" true true
  | B_month_tbd => mk_classified mdate "month" true true
  | B_month_vague => mk_classified mdate "month" true true
  | B_month => mk_classified mdate "month" true true
  | B_day => mk_classified mdate "day" false true
  | B_hour => mk_classified mdate "hour" false false
  end.

Definition classify (mdate : string) : option classified :=
  (λ b, branch_body b mdate) <$> select_branch mdate.

(** *** Time zone of a launch site (lines 171 to 177) *)

Definition time_zone (location : option string) : string :=
  if bool_decide (location = Some "ccafs_slc_40"%string)
     || bool_decide (location = Some "ksc_lc_39a"%string)
     || bool_decide (location = Some "ccafs_lc_13"%string)
  then "America/New_York"
  else if bool_decide (location = Some "vafb_slc_4e"%string)
          || bool_decide (location = Some "vafb_slc_4w"%string)
  then "America/Los_Angeles"
  else "America/Chicago".

(** *** Launch site of a manifest launchpad (lines 183 to 204) *)

Record site : Type := mk_site {
  site_id : option string;
  site_name : option string;
  site_name_long : option string
}.

#[global] Instance site_eq_dec : EqDecision site.
Proof. solve_decision. Defined.

Definition is_pad (pad : option string) (label : string) : bool :=
  bool_decide (pad = Some label).

Definition launch_site (pad : option string) : site :=
  if is_pad pad "SLC-40" || is_pad pad "SLC-40 / LC-39A" || is_pad pad "SLC-40 / BC"
  then mk_site (Some "ccafs_slc_40"%string) (Some "CCAFS SLC 40"%string)
         (Some "Cape Canaveral Air Force Station Space Launch Complex 40"%string)
  else if is_pad pad "LC-39A" || is_pad pad "LC-39A / BC" || is_pad pad "LC-39A / SLC-40"
  then mk_site (Some "ksc_lc_39a"%string) (Some "KSC LC 39A"%string)
         (Some "Kennedy Space Center Historic Launch Complex 39A"%string)
  else if is_pad pad "SLC-4E"
  then mk_site (Some "vafb_slc_4e"%string) (Some "VAFB SLC 4E"%string)
         (Some "Vandenberg Air Force Base Space Launch Complex 4E"%string)
  else if is_pad pad "BC" || is_pad pad "BC / LC-39A" || is_pad pad "BC / SLC-40"
  then mk_site (Some "stls"%string) (Some "STLS"%string)
         (Some "SpaceX South Texas Launch Site"%string)
  else mk_site None None None.

(** The labels of the [if] chain. *)
Definition known_pads : list string :=
  ["SLC-40"; "SLC-40 / LC-39A"; "SLC-40 / BC";
   "LC-39A"; "LC-39A / BC"; "LC-39A / SLC-40";
   "SLC-4E"; "BC"; "BC / LC-39A"; "BC / SLC-40"]%string.

(** *** The update of one launch *)

(** [calculatedTimes] *)
Record times : Type := mk_times {
  flight_number : Z;
  launch_year : string;
  launch_date_unix : Z;
  launch_date_utc : string;
  launch_date_local : string;
  is_tentative : bool;
  tentative_max_precision : option string;
  tbd : bool;
  launch_site_site_id : option string;
  launch_site_site_name : option string;
  launch_site_site_name_long : option string
}.

(** One call [col.updateOne({ 'rocket.second_stage.payloads.payload_id':
    payload }, { $set: calculatedTimes })]. *)
Record update : Type := mk_update {
  filter_payload_id : string;
  set_fields : times
}.

Inductive log_entry : Type :=
| Log_text (s : string)
| Log_value (v : option string)
| Log_times (t : times).

(** The arrays the loops write to, and the console.  [promises] holds
    the calls of [col.updateOne] in the order they are made: the
    operation is called when the argument of [promises.push] is
    evaluated.  [precision] is an array written by index.  The scratch
    variables [location], [date], [localTime], [tbd], [is_tentative] and
    [calculatedTimes] are assigned in every iteration before they are
    read, so they are local bindings of the iteration. *)
Record state : Type := mk_state {
  precision : gmap nat string;
  flight_numbers : list Z;
  promises : list update;
  console : list log_entry
}.

Definition initial : state := mk_state ∅ [] [] [].

Definition console_log (e : log_entry) (st : state) : state :=
  mk_state (precision st) (flight_numbers st) (promises st) (console st ++ [e]).

Definition set_precision (i : nat) (p : string) (st : state) : state :=
  mk_state (<[i := p]> (precision st)) (flight_numbers st) (promises st) (console st).

Definition push_flight_number (n : Z) (st : state) : state :=
  mk_state (precision st) (flight_numbers st ++ [n]) (promises st) (console st).

Definition push_promise (u : update) (st : state) : state :=
  mk_state (precision st) (flight_numbers st) (promises st ++ [u]) (console st).

(** [array.forEach((value, index) => ...)], with a callback that may
    throw. *)
Fixpoint forEach_from {A St : Type} (f : A → nat → St → option St)
    (l : list A) (i : nat) (st : St) : option St :=
  match l with
  | [] => Some st
  | x :: l' =>
      match f x i st with
      | Some st' => forEach_from f l' (S i) st'
      | None => None
      end
  end.

Definition forEach {A St : Type} (f : A → nat → St → option St)
    (l : list A) (st : St) : option St :=
  forEach_from f l 0%nat st.

(** [array.filter((value, index) => p(index))] *)
Fixpoint filter_index_from {A : Type} (p : nat → bool) (l : list A)
    (i : nat) : list A :=
  match l with
  | [] => []
  | x :: l' =>
      if p i then x :: filter_index_from p l' (S i)
      else filter_index_from p l' (S i)
  end.

Definition filter_index {A : Type} (p : nat → bool) (l : list A) : list A :=
  filter_index_from p l 0%nat.

(** [[...new Set(a)]]: the distinct values in the order of their first
    occurrence. *)
Definition set_add (acc : list Z) (x : Z) : list Z :=
  if bool_decide (x ∈ acc) then acc else acc ++ [x].

Definition set_of (a : list Z) : list Z := foldl set_add [] a.

Definition number_toString (z : Z) : string :=
  NilZero.string_of_int (Z.to_int z).

(** a template literal prints [undefined] for a missing element *)
Definition template (v : option string) : string :=
  match v with Some s => s | None => "undefined" end.

Definition moment_formats : list string :=
  ["YYYY MMM D HH:mm Z"; "YYYY MMM D Z"; "YYYY MMM Z"; "YYYY Q Z"; "YYYY Z"]%string.

Definition not_found_message : string :=
  "Date did not match any of the existing regular expressions".

(** *** The run *)

Inductive outcome : Type :=
| Threw
| Exited (code : Z) (st : state)
| Completed (st : state) (report : list log_entry).

Definition asc (a b : Doc.launch) : Prop :=
  Doc.flight_number a ≤ Doc.flight_number b.
Definition desc (a b : Doc.launch) : Prop :=
  Doc.flight_number b ≤ Doc.flight_number a.

#[global] Instance asc_dec : RelDecision asc.
Proof. intros a b. unfold asc. apply _. Defined.
#[global] Instance desc_dec : RelDecision desc.
Proof. intros a b. unfold desc. apply _. Defined.

(** [col.find({ upcoming: true }).sort({ flight_number: 1 }).toArray()] *)
Definition find_upcoming (col : list Doc.launch) : list Doc.launch :=
  merge_sort asc (filter (λ l, Doc.upcoming l = true) col).

(** [col.find({ upcoming: false }).sort({ flight_number: -1 }).toArray()] *)
Definition find_past (col : list Doc.launch) : list Doc.launch :=
  merge_sort desc (filter (λ l, Doc.upcoming l = false) col).

(** [past_launches[0].flight_number + 1]; reading a field of
    [undefined] throws. *)
Definition base_flight_number (col : list Doc.launch) : option Z :=
  match find_past col with
  | [] => None
  | l :: _ => Some (Doc.flight_number l + 1)
  end.

(** [manifest.split('\n').filter(v => v !== '')] *)
Definition manifest_row (manifest : string) : list string :=
  filter (λ v, v ≠ ""%string) (Str.split manifest "010").

Definition manifest_dates (row : list string) : list string :=
  filter_index (λ index, (index mod 8 =? 0)%nat) row.
Definition manifest_payloads (row : list string) : list string :=
  filter_index (λ index, ((index + 3) mod 8 =? 0)%nat) row.
Definition manifest_launchpads (row : list string) : list string :=
  filter_index (λ index, ((index + 6) mod 8 =? 0)%nat) row.

(** Every element of a list repeated a number of times, in the order of
    the list. *)
Definition repeats {A : Type} (n : A → nat) (ps : list A) : list A :=
  flat_map (λ p, replicate (n p) p) ps.

(** The payload identifier an update is addressed to, and the flight
    number it sets. *)
Definition summary (u : update) : string * Z :=
  (filter_payload_id u, flight_number (set_fields u)).

(** Every line of the report names the payload its update was addressed
    to. *)
Definition labelled_right (payloads : list string) (output : list update) : Prop :=
  ∀ i u, output !! i = Some u → payloads !! i = Some (filter_payload_id u).

Section Script.

(** [fuzz.partial_ratio] of fuzzball *)
Variable partial_ratio : string → string → Z.

(** moment-timezone: [moment(string, formats)], [moment.tz(m, zone)]
    and [m.tz(zone)], [m.format()], [m.year()], [m.unix()],
    [m.toISOString()] *)
Variable moment : Type.
Variable moment_parse : string → list string → moment.
Variable moment_tz : moment → string → moment.
Variable moment_format : moment → string.
Variable moment_year : moment → Z.
Variable moment_unix : moment → Z.
Variable moment_toISOString : moment → string.

(** [doc.result.nModified] of the answer to the update at a position
    of [promises] *)
Variable nModified : nat → update → Z.

(** [date.replace(/(early|mid|late)/i, '').replace('[', '').replace(']', '') + ' +0000'] *)
Definition parsed_date (date : string) : string :=
  Str.replace (Str.replace (Str.strip_vague date) "[" "") "]" "" +:+ " +0000".

(** The object built at lines 207 to 220. *)
Definition calculated_times (base : Z) (manifest_index : nat)
    (date : string) (location : option string) (pad : option string)
    (c : classified) (st : state) : times :=
  let time := moment_parse (parsed_date date) moment_formats in
  let zone := moment_tz time "UTC" in
  let localTime := moment_format (moment_tz time (time_zone location)) in
  let s := launch_site pad in
  mk_times
    (base + Z.of_nat manifest_index)
    (number_toString (moment_year zone))
    (moment_unix zone)
    (moment_toISOString zone)
    localTime
    (c_is_tentative c)
    (precision st !! manifest_index)
    (c_tbd c)
    (site_id s) (site_name s) (site_name_long s).

(** The rest of the callback once the date is classified (lines 155 to
    225): the flight number, the launch site, the update. *)
Definition build_update (base : Z) (sites : list (option string))
    (launchpads : list string)
    (payload : string) (payload_index : nat)
    (manifest_payload : string) (manifest_index : nat)
    (mdate : string) (c : classified) (st : state) : state :=
  let st := set_precision manifest_index (c_precision c) st in
  let location := mjoin (sites !! payload_index) in
  let date := mdate in
  let st := console_log (Log_text date) st in
  let st := console_log (Log_text (payload +:+ " : " +:+ manifest_payload)) st in
  let st := push_flight_number (base + Z.of_nat manifest_index) st in
  let pad := launchpads !! manifest_index in
  let st := console_log (Log_value pad) st in
  let calculatedTimes :=
    calculated_times base manifest_index date location pad c st in
  let st := console_log (Log_times calculatedTimes) st in
  let st := console_log (Log_text "") st in
  push_promise (mk_update payload calculatedTimes) st.

(** The body of the inner callback (lines 93 to 226).  The date
    [manifest_dates[manifest_index]] is read at line 96 and again at line
    158. *)
Definition iteration (base : Z) (sites : list (option string))
    (dates launchpads : list string)
    (payload : string) (payload_index : nat)
    (manifest_payload : string) (manifest_index : nat)
    (st : state) : option state :=
  if partial_ratio payload manifest_payload =? 100 then
    match dates !! manifest_index with
    | None => None
    | Some mdate =>
        match classify mdate with
        | None => Some (console_log (Log_text not_found_message) st)
        | Some c =>
            Some (build_update base sites launchpads payload payload_index
                    manifest_payload manifest_index mdate c st)
        end
    end
  else Some st.

(** The two nested [forEach] (lines 91 to 228). *)
Definition loops (base : Z) (payloads : list string)
    (sites : list (option string)) (row : list string) : option state :=
  forEach
    (λ payload payload_index,
       forEach
         (λ manifest_payload manifest_index,
            iteration base sites (manifest_dates row) (manifest_launchpads row)
              payload payload_index manifest_payload manifest_index)
         (manifest_payloads row))
    payloads initial.

(** [[...new Set(flight_numbers)].length < flight_numbers.length] *)
Definition has_duplicates (a : list Z) : bool :=
  (length (set_of a) <? length a)%nat.

(** One line of the final report (lines 240 to 246). *)
Definition report_line (payloads : list string) (index : nat) (u : update)
    : log_entry :=
  if negb (nModified index u =? 0)
  then Log_text (template (payloads !! index) +:+ " UPDATED")
  else Log_text (template (payloads !! index)).

Definition report (payloads : list string) (output : list update)
    : list log_entry :=
  imap (report_line payloads) output.

(** Whether the callback pushes an update at a payload and a manifest
    row: the score is 100 and the date of the row is classified. *)
Definition issues (dates : list string) (payload manifest_payload : string)
    (manifest_index : nat) : bool :=
  (partial_ratio payload manifest_payload =? 100)
  && match dates !! manifest_index with
     | Some d => bool_decide (is_Some (classify d))
     | None => false
     end.

(** The manifest rows at which an update is pushed for a payload, in the
    order of the inner loop. *)
Fixpoint issued_from (dates : list string) (payload : string)
    (labels : list string) (i : nat) : list nat :=
  match labels with
  | [] => []
  | label :: labels' =>
      if issues dates payload label i
      then i :: issued_from dates payload labels' (S i)
      else issued_from dates payload labels' (S i)
  end.

Definition issued (row : list string) (payload : string) : list nat :=
  issued_from (manifest_dates row) payload (manifest_payloads row) 0.

(** Payload and flight number of the updates of the two loops, payload by
    payload. *)
Definition numbered (base : Z) (payload : string) (rows : list nat)
    : list (string * Z) :=
  (λ manifest_index, (payload, base + Z.of_nat manifest_index)) <$> rows.

Definition all_issued (base : Z) (row : list string) (payloads : list string)
    : list (string * Z) :=
  flat_map (λ payload, numbered base payload (issued row payload)) payloads.

(** The script from the first query on, for a collection [col] and the
    text [manifest] of the manifest table. *)
Definition run (col : list Doc.launch) (manifest : string) : outcome :=
  let launches := find_upcoming col in
  match base_flight_number col with
  | None => Threw
  | Some base =>
      let payloads := Doc.payload_id <$> launches in
      let sites := Doc.site_id <$> launches in
      match loops base payloads sites (manifest_row manifest) with
      | None => Threw
      | Some st =>
          if has_duplicates (flight_numbers st)
          then Exited 1
                 (console_log (Log_text "Duplicate flight numbers found") st)
          else Completed st (report payloads (promises st))
      end
  end.

End Script.

End Upcoming.

(** ** Analyses of character classes and of patterns

    Definitions used to reason about the patterns: enumeration of the
    characters, counts of the characters of a class, bounds on these counts
    for the strings of a pattern, and the characters a pattern never
    matches. *)

Module Classes.
Import Chars.

(** The 256 characters. *)
Definition all_ascii : list ascii := (λ n, ascii_of_N (N.of_nat n)) <$> seq 0 256.

(** Inclusion of one character class in another, decided by enumeration. *)
Definition subclass (p q : ascii → bool) : bool :=
  forallb (λ c, implb (p c) (q c)) all_ascii.

(** Every character of a string is of a class. *)
Definition all (p : ascii → bool) (s : list ascii) : Prop :=
  Forall (λ c, p c = true) s.

(** Number of characters of a class in a string. *)
Fixpoint count (p : ascii → bool) (s : list ascii) : nat :=
  match s with
  | [] => O
  | c :: s' => ((if p c then 1 else 0) + count p s')%nat
  end.

End Classes.

Module Analysis.
Import Chars Regex Classes.

(** A matching step accepts only a string of a language followed by a
    rest that its continuation accepts. *)
Definition sound (step : list ascii → cont → bool) (L : list ascii → Prop) : Prop :=
  ∀ s k, step s k = true → ∃ s1 s2, s = s1 ++ s2 ∧ L s1 ∧ k s2 = true.

(** The characters that match, under the [i] flag, some character of a
    word. *)
Definition one_of (w : list ascii) (c : ascii) : bool :=
  existsb (λ x, chr_i x c) w.

(** Least and greatest number of characters of the class [p] in a string
    of one character of the class [q], and in a string of a pattern. *)
Definition class_bounds (p q : ascii → bool) : nat * nat :=
  if subclass q p then (1, 1)%nat
  else if subclass q (λ c, negb (p c)) then (0, 0)%nat
  else (0, 1)%nat.

Fixpoint bounds (p : ascii → bool) (r : regex) : nat * nat :=
  match r with
  | Eps => (0, 0)%nat
  | Class q => class_bounds p q
  | Seq r1 r2 =>
      let '(a1, b1) := bounds p r1 in
      let '(a2, b2) := bounds p r2 in
      (a1 + a2, b1 + b2)%nat
  | Alt r1 r2 =>
      let '(a1, b1) := bounds p r1 in
      let '(a2, b2) := bounds p r2 in
      (a1 `min` a2, b1 `max` b2)%nat
  | Rep r lo hi =>
      let '(a, b) := bounds p r in
      (lo * a, (lo `max` hi) * b)%nat
  end.

(** No character class of the pattern contains [x]. *)
Fixpoint avoids (x : ascii) (r : regex) : bool :=
  match r with
  | Eps => true
  | Class q => negb (q x)
  | Seq r1 r2 | Alt r1 r2 => avoids x r1 && avoids x r2
  | Rep r _ _ => avoids x r
  end.

(** The letters of [early], [mid] and [late], in either case. *)
Definition vague_letter : ascii → bool :=
  one_of (list_ascii_of_string "earlymidlate").

(** The digit of [H1] or of [H2]. *)
Definition half_digit (x : ascii) : Prop := x = "1"%char ∨ x = "2"%char.

(** Two ranges of counts that do not meet; two patterns whose counts of
    white spaces or of digits do not meet.  These counts tell the patterns
    of the script apart, but for [month_tbd] and [month_vague], and for
    [year_tbd] and [month]. *)
Definition far (a b : nat * nat) : bool :=
  (a.2 <? b.1)%nat || (b.2 <? a.1)%nat.

Definition apart (p1 p2 : regex) : bool :=
  far (bounds space p1) (bounds space p2) || far (bounds digit p1) (bounds digit p2).

End Analysis.

(** ** The cascade as a table *)

Module Table.
Import Regex Patterns Upcoming.

(** The rows of the cascade as a table: the two branches for the halves of
    a year share a row, every other branch is a row of its own. *)
Inductive row : Type :=
| R_quarter | R_half | R_year_tbd | R_year
| R_month_tbd | R_month_vague | R_month | R_day | R_hour.

(** The row of a branch, the position of a row, and the test of a row. *)
Definition row_of (b : branch) : row :=
  match b with
  | B_quarter => R_quarter
  | B_h1 | B_h2 => R_half
  | B_year_tbd => R_year_tbd
  | B_year => R_year
  | B_month_tbd => R_month_tbd
  | B_month_vague => R_month_vague
  | B_month => R_month
  | B_day => R_day
  | B_hour => R_hour
  end.

Definition row_index (r : row) : nat :=
  match r with
  | R_quarter => 0 | R_half => 1 | R_year_tbd => 2 | R_year => 3
  | R_month_tbd => 4 | R_month_vague => 5 | R_month => 6
  | R_day => 7 | R_hour => 8
  end.

Definition row_test (r : row) (mdate : string) : bool :=
  match r with
  | R_quarter => branch_test B_quarter mdate
  | R_half => branch_test B_h1 mdate || branch_test B_h2 mdate
  | R_year_tbd => branch_test B_year_tbd mdate
  | R_year => branch_test B_year mdate
  | R_month_tbd => branch_test B_month_tbd mdate
  | R_month_vague => branch_test B_month_vague mdate
  | R_month => branch_test B_month mdate
  | R_day => branch_test B_day mdate
  | R_hour => branch_test B_hour mdate
  end.

(** The pattern of a row that is decided by a regular expression. *)
Definition row_pattern (r : row) : option regex :=
  match r with
  | R_quarter | R_half => None
  | R_year_tbd => Some year_tbd
  | R_year => Some year
  | R_month_tbd => Some month_tbd
  | R_month_vague => Some month_vague
  | R_month => Some month
  | R_day => Some day
  | R_hour => Some hour
  end.

(** Bounds on the number of white spaces and of digits, row by row. *)
Definition row_profile (r : row) : (nat * nat) * (nat * nat) :=
  match r with
  | R_quarter | R_half => ((0, 0), (0, 0))
  | R_year_tbd => ((1, 1), (4, 4))
  | R_year => ((0, 0), (4, 4))
  | R_month_tbd => ((2, 2), (4, 4))
  | R_month_vague => ((2, 2), (4, 4))
  | R_month => ((1, 1), (4, 4))
  | R_day => ((2, 2), (5, 6))
  | R_hour => ((3, 3), (9, 10))
  end%nat.

End Table.

(** ** An update on its own

    The update that the callback pushes for a payload and a manifest row,
    written as a function of that payload and that row alone (lines 155 to
    225), and the updates of the two loops in the order they are pushed. *)

Module Alone.
Import Upcoming.

Section Alone.

Variable partial_ratio : string → string → Z.
Variable moment : Type.
Variable moment_parse : string → list string → moment.
Variable moment_tz : moment → string → moment.
Variable moment_format : moment → string.
Variable moment_year : moment → Z.
Variable moment_unix : moment → Z.
Variable moment_toISOString : moment → string.

Definition update_of (base : Z) (sites : list (option string))
    (dates launchpads : list string)
    (payload : string) (payload_index manifest_index : nat) : option update :=
  match dates !! manifest_index with
  | None => None
  | Some date =>
      match classify date with
      | None => None
      | Some c =>
          let time := moment_parse (parsed_date date) moment_formats in
          let zone := moment_tz time "UTC" in
          let s := launch_site (launchpads !! manifest_index) in
          Some (mk_update payload
                  (mk_times
                     (base + Z.of_nat manifest_index)
                     (number_toString (moment_year zone))
                     (moment_unix zone)
                     (moment_toISOString zone)
                     (moment_format
                        (moment_tz time (time_zone (mjoin (sites !! payload_index)))))
                     (c_is_tentative c)
                     (Some (c_precision c))
                     (c_tbd c)
                     (site_id s) (site_name s) (site_name_long s)))
      end
  end.

(** The callback pushes an update for a payload at a manifest row: the
    score of the payload against the payload of the row is 100 and the
    date of the row is classified. *)
Definition pushes_at (row : list string) (payload : string)
    (manifest_index : nat) : Prop :=
  ∃ label date,
    manifest_payloads row !! manifest_index = Some label
    ∧ partial_ratio payload label = 100
    ∧ manifest_dates row !! manifest_index = Some date
    ∧ is_Some (classify date).

(** The updates of one payload, and of the payloads from a position on. *)
Definition updates_of (base : Z) (sites : list (option string))
    (dates launchpads : list string) (payload : string) (payload_index : nat)
    (rows : list nat) : list update :=
  omap (update_of base sites dates launchpads payload payload_index) rows.

Fixpoint all_updates_from (base : Z) (sites : list (option string))
    (row : list string) (payloads : list string) (payload_index : nat)
    : list update :=
  match payloads with
  | [] => []
  | payload :: payloads' =>
      updates_of base sites (manifest_dates row) (manifest_launchpads row)
        payload payload_index (issued partial_ratio row payload)
      ++ all_updates_from base sites row payloads' (S payload_index)
  end.

End Alone.

End Alone.

(** ** Stand-ins for the libraries

    Simple functions in place of fuzzball, moment-timezone and the
    database, to evaluate the script on examples. *)

Module Sample.

(** 100 when the label contains the payload identifier, 0 otherwise *)
Definition ratio (payload label : string) : Z :=
  if Str.includes label payload then 100 else 0.

Definition moment : Type := string.
Definition parse (s : string) (formats : list string) : moment := s.
Definition tz (m : moment) (zone : string) : moment := m +:+ " " +:+ zone.
Definition format (m : moment) : string := m.
Definition year_of (m : moment) : Z := 2020.
Definition unix (m : moment) : Z := 0.
Definition toISOString (m : moment) : string := m.
Definition modified (index : nat) (u : Upcoming.update) : Z := 1.

Definition newline : string := String "010" EmptyString.

(** The text of a manifest table: eight cells per row, one per line, the
    date first, the launchpad third and the payload sixth. *)
Definition table_row (date payload pad : string) : list string :=
  [date; "F9"; pad; "LEO"; "1000"; payload; "Customer"; "-"]%string.

Definition text (cells : list string) : string :=
  foldr (λ c acc, c +:+ newline +:+ acc) ""%string cells.

(** A collection with one past launch and two upcoming launches, and a
    manifest whose only row names the payloads of both. *)
Definition rideshare_col : list Doc.launch :=
  [Doc.mk false 49 "Telstar 19V" (Some "ccafs_slc_40");
   Doc.mk true 50 "Iridium NEXT 6" (Some "vafb_slc_4e");
   Doc.mk true 51 "GRACE-FO" (Some "vafb_slc_4e")]%string.

Definition rideshare_manifest : string :=
  text (table_row "2018 May 19 [20:03]" "Iridium NEXT 6 / GRACE-FO" "SLC-4E").

(** One past launch, one upcoming launch, and a manifest with a row for
    it. *)
Definition single_col : list Doc.launch :=
  [Doc.mk false 49 "Telstar 19V" (Some "ccafs_slc_40");
   Doc.mk true 50 "A" (Some "ksc_lc_39a")]%string.

Definition single_manifest : string :=
  text (table_row "2020 Nov 4 [14:10]" "A sat" "LC-39A").

(** Three rows, for the payloads [A], [B] and [C] in that order. *)
Definition three_rows : list string :=
  table_row "2020 Nov 4 [14:10]" "A sat" "SLC-40"
  ++ table_row "2020 Nov" "B sat" "unknown-pad"
  ++ table_row "2020 Q4" "C sat" "SLC-4E".

Definition step :=
  Upcoming.iteration ratio moment parse tz format year_of unix toISOString.
Definition nested :=
  Upcoming.loops ratio moment parse tz format year_of unix toISOString.
Definition script :=
  Upcoming.run ratio moment parse tz format year_of unix toISOString modified.

End Sample.

(** * Properties *)

(** ** Sample evaluations *)

Example includes_Q : Str.includes "2020 Q3" "Q" = true.
Proof. reflexivity. Qed.
Example replace_H2 : Str.replace "2020 H2" "H2" "3" = "2020 3"%string.
Proof. reflexivity. Qed.
Example strip_late : Str.strip_vague "2020 Late Nov" = "2020  Nov"%string.
Proof. reflexivity. Qed.
Example split_rows :
  Str.split (String "a" (String "010" (String "b" EmptyString))) "010"
  = ["a"; "b"]%string.
Proof. reflexivity. Qed.
Example hour_ok : Regex.test Patterns.hour "2020 Nov 4 [14:10]" = true.
Proof. reflexivity. Qed.
Example hour_ok2 : Regex.test Patterns.hour "2020 November 14 14:10" = true.
Proof. reflexivity. Qed.
Example hour_bad : Regex.test Patterns.hour "2020 Nov 4 [14:10" = false.
Proof. reflexivity. Qed.
Example month_not_tbd : Regex.test Patterns.month "2020 Nov TBD" = false.
Proof. reflexivity. Qed.
Example month_tbd_ok : Regex.test Patterns.month_tbd "2020 nov tbd" = true.
Proof. reflexivity. Qed.
Example vague_ok : Regex.test Patterns.month_vague "2020 Late Nov" = true.
Proof. reflexivity. Qed.

(** ** Characters *)

Module CharFacts.
Import Chars Classes.

Lemma all_ascii_complete (c : ascii) : c ∈ all_ascii.
Proof.
  unfold all_ascii. apply list_elem_of_fmap. exists (nat_of_ascii c). split.
  - unfold nat_of_ascii. rewrite N2Nat.id. symmetry. apply ascii_N_embedding.
  - apply elem_of_seq. pose proof (nat_ascii_bounded c). lia.
Qed.

Lemma subclass_spec (p q : ascii → bool) :
  subclass p q = true → ∀ c, p c = true → q c = true.
Proof.
  unfold subclass. intros H c Hp.
  rewrite forallb_forall in H.
  specialize (H c). rewrite Hp in H. apply H.
  apply list_elem_of_In, all_ascii_complete.
Qed.

Lemma all_weaken (p q : ascii → bool) (s : list ascii) :
  subclass p q = true → all p s → all q s.
Proof.
  intros H Hp. unfold all in *. eapply Forall_impl; [exact Hp|].
  intros c. by apply subclass_spec.
Qed.

Lemma count_app (p : ascii → bool) (s1 s2 : list ascii) :
  count p (s1 ++ s2) = (count p s1 + count p s2)%nat.
Proof. induction s1 as [|c s1 IH]; simpl; [done | rewrite IH; lia]. Qed.

End CharFacts.

(** ** The matcher and the language of a pattern *)

Module RegexFacts.
Import Chars Regex Classes Analysis CharFacts.

Lemma rep_exact_sound step L n :
  sound step L →
  ∀ s k, rep_exact step n s k = true →
    ∃ ss s2, length ss = n ∧ Forall L ss ∧ s = concat ss ++ s2 ∧ k s2 = true.
Proof.
  intros Hstep. induction n as [|n IH]; intros s k H; simpl in H.
  - exists [], s. auto.
  - apply Hstep in H as (s1 & s2 & -> & HL & H).
    apply IH in H as (ss & s3 & Hlen & Hall & -> & Hk).
    exists (s1 :: ss), s3. simpl. rewrite Hlen, <- app_assoc. auto.
Qed.

Lemma rep_upto_sound step L n :
  sound step L →
  ∀ s k, rep_upto step n s k = true →
    ∃ ss s2, (length ss ≤ n)%nat ∧ Forall L ss ∧ s = concat ss ++ s2 ∧ k s2 = true.
Proof.
  intros Hstep. induction n as [|n IH]; intros s k H; simpl in H.
  - exists [], s. auto.
  - apply orb_true_iff in H as [H|H].
    + apply Hstep in H as (s1 & s2 & -> & HL & H).
      apply IH in H as (ss & s3 & Hlen & Hall & -> & Hk).
      exists (s1 :: ss), s3. simpl. rewrite <- app_assoc.
      repeat split; auto. lia.
    + exists [], s. simpl. repeat split; auto. lia.
Qed.

(** Whatever the matcher accepts is in the language of the pattern. *)
Lemma exec_sound (r : regex) : sound (exec r) (lang r).
Proof.
  induction r as [|p|r1 IH1 r2 IH2|r1 IH1 r2 IH2|r IH lo hi]; intros s k H; simpl in H.
  - exists [], s. simpl. auto.
  - destruct s as [|c s]; [done|].
    apply andb_true_iff in H as [Hp Hk].
    exists [c], s. simpl. eauto.
  - apply IH1 in H as (s1 & s2 & -> & H1 & H).
    apply IH2 in H as (s3 & s4 & -> & H2 & Hk).
    exists (s1 ++ s3), s4. rewrite <- app_assoc. simpl. eauto 10.
  - apply orb_true_iff in H as [H|H].
    + apply IH1 in H as (s1 & s2 & -> & H1 & Hk). exists s1, s2. simpl. auto.
    + apply IH2 in H as (s1 & s2 & -> & H2 & Hk). exists s1, s2. simpl. auto.
  - apply (rep_exact_sound _ _ _ IH) in H as (ss1 & s2 & Hlen1 & Hall1 & -> & H).
    apply (rep_upto_sound _ _ _ IH) in H as (ss2 & s3 & Hlen2 & Hall2 & -> & Hk).
    exists (concat (ss1 ++ ss2)), s3. split; [|split; [|done]].
    + by rewrite concat_app, <- app_assoc.
    + exists (ss1 ++ ss2). rewrite length_app.
      split; [lia|]. split; [done|]. by apply Forall_app.
Qed.

Lemma test_lang (r : regex) (s : string) :
  test r s = true → lang r (list_ascii_of_string s).
Proof.
  unfold test. intros H.
  apply exec_sound in H as (s1 & s2 & Hs & HL & Hend).
  destruct s2; [|done]. rewrite app_nil_r in Hs. by rewrite Hs.
Qed.

(** A bounded repetition of a character class. *)
Lemma lang_rep_class (p : ascii → bool) (lo hi : nat) (s : list ascii) :
  lang (Rep (Class p) lo hi) s → (lo ≤ length s ≤ lo `max` hi)%nat ∧ all p s.
Proof.
  simpl. intros (ss & Hlen & -> & Hall).
  assert (length (concat ss) = length ss ∧ all p (concat ss)) as [-> ?]; [|done].
  clear Hlen. induction Hall as [|x ss (c & -> & Hc) _ [IHl IHa]]; simpl.
  - split; [done | constructor].
  - split; [by rewrite IHl | by constructor].
Qed.

(** A literal word under the [i] flag. *)
Lemma lang_word_i (w s : list ascii) :
  lang (word_i w) s → Forall2 (λ x c, chr_i x c = true) w s.
Proof.
  revert s. induction w as [|x w IH]; intros s; simpl.
  - intros ->. constructor.
  - intros (s1 & s2 & -> & (c & -> & Hc) & H). constructor; auto.
Qed.

Lemma lang_word_i_all (w s : list ascii) :
  lang (word_i w) s → all (one_of w) s.
Proof.
  intros H%lang_word_i. unfold all.
  induction H as [|x c w s Hc _ IH]; [constructor|].
  constructor.
  - unfold one_of. simpl. by rewrite Hc.
  - eapply Forall_impl; [exact IH|]. intros c'. unfold one_of. simpl.
    intros ->. apply orb_true_r.
Qed.

(** *** Bounds on the number of characters of a class *)

Lemma count_concat_bounds (p : ascii → bool) (L : list ascii → Prop) (a b : nat)
    (ss : list (list ascii)) :
  (∀ s, L s → (a ≤ count p s ≤ b)%nat) →
  Forall L ss →
  (length ss * a ≤ count p (concat ss) ≤ length ss * b)%nat.
Proof.
  intros HL Hall. induction Hall as [|s ss Hs _ IH]; simpl; [lia|].
  rewrite count_app. specialize (HL s Hs). lia.
Qed.

Lemma lang_bounds (p : ascii → bool) (r : regex) (s : list ascii) :
  lang r s → ((bounds p r).1 ≤ count p s ≤ (bounds p r).2)%nat.
Proof.
  revert s. induction r as [|q|r1 IH1 r2 IH2|r1 IH1 r2 IH2|r IH lo hi]; intros s;
    cbn [lang bounds].
  - intros ->. simpl. lia.
  - intros (c & -> & Hq). unfold class_bounds. simpl.
    destruct (subclass q p) eqn:E1; simpl.
    { rewrite (subclass_spec _ _ E1 c Hq). lia. }
    destruct (subclass q (λ c, negb (p c))) eqn:E2; simpl.
    { pose proof (subclass_spec _ _ E2 c Hq) as Hn. simpl in Hn.
      apply negb_true_iff in Hn. rewrite Hn. lia. }
    destruct (p c); lia.
  - intros (s1 & s2 & -> & H1 & H2). rewrite count_app.
    specialize (IH1 _ H1). specialize (IH2 _ H2).
    destruct (bounds p r1), (bounds p r2). simpl in *. lia.
  - destruct (bounds p r1), (bounds p r2).
    intros [H|H]; [specialize (IH1 _ H) | specialize (IH2 _ H)]; simpl in *; lia.
  - intros (ss & Hlen & -> & Hall).
    pose proof (count_concat_bounds p _ _ _ ss IH Hall) as Hc.
    destruct (bounds p r) as [a b]. cbn [fst snd] in *.
    split.
    + transitivity (length ss * a)%nat; [|lia].
      apply Nat.mul_le_mono_r. lia.
    + transitivity (length ss * b)%nat; [lia|].
      apply Nat.mul_le_mono_r. lia.
Qed.

(** Two patterns whose counts of some class cannot agree have no string
    in common. *)
Lemma test_apart (p : ascii → bool) (r1 r2 : regex) (s : string) :
  ((bounds p r1).2 <? (bounds p r2).1)%nat || ((bounds p r2).2 <? (bounds p r1).1)%nat = true →
  test r1 s = true → test r2 s = false.
Proof.
  intros Hb H1. destruct (test r2 s) eqn:H2; [|done].
  apply test_lang, (lang_bounds p) in H1.
  apply test_lang, (lang_bounds p) in H2.
  apply orb_true_iff in Hb as [Hb|Hb]; apply Nat.ltb_lt in Hb; lia.
Qed.

(** *** Characters a pattern never matches *)

Lemma lang_avoids (x : ascii) (r : regex) (s : list ascii) :
  avoids x r = true → lang r s → x ∉ s.
Proof.
  revert s. induction r as [|q|r1 IH1 r2 IH2|r1 IH1 r2 IH2|r IH lo hi]; intros s; simpl.
  - intros _ ->. apply not_elem_of_nil.
  - intros Hq (c & -> & Hc) Hin. apply list_elem_of_singleton in Hin as ->.
    by rewrite Hc in Hq.
  - intros [A1 A2]%andb_true_iff (s1 & s2 & -> & H1 & H2).
    rewrite elem_of_app. intros [?|?]; [by eapply IH1 | by eapply IH2].
  - intros [A1 A2]%andb_true_iff [H|H]; eauto.
  - intros A (ss & _ & -> & Hall).
    induction Hall as [|s ss Hs _ IHss]; simpl.
    + apply not_elem_of_nil.
    + rewrite elem_of_app. intros [?|?]; [by eapply IH | done].
Qed.

End RegexFacts.

(** ** Substrings *)

Module StrFacts.
Import Chars Regex Classes Analysis CharFacts Str.

Lemma all_not_in (p : ascii → bool) (s : list ascii) (x : ascii) :
  all p s → p x = false → x ∉ s.
Proof.
  intros Hall Hx Hin. unfold all in Hall. rewrite Forall_forall in Hall.
  specialize (Hall x Hin). congruence.
Qed.

Lemma includes_skip (a : ascii) (p l r : list ascii) :
  a ∉ l → includes_list (a :: p) (l ++ r) = includes_list (a :: p) r.
Proof.
  induction l as [|c l IH]; [done|]. intros Hn.
  apply not_elem_of_cons in Hn as [Hne Hn].
  cbn [app includes_list starts_with].
  destruct (Ascii.eqb_spec c a) as [->|_]; [done|]. simpl. auto.
Qed.

Lemma includes_absent (a : ascii) (p s : list ascii) :
  a ∉ s → includes_list (a :: p) s = false.
Proof.
  intros Hn. rewrite <- (app_nil_r s). by rewrite includes_skip.
Qed.

Lemma includes_pair_skip (a b : ascii) (m post : list ascii) :
  b ∉ m → head post ≠ Some b →
  includes_list [a; b] (m ++ post) = includes_list [a; b] post.
Proof.
  intros Hm Hpost. induction m as [|c m IH]; [done|].
  apply not_elem_of_cons in Hm as [Hne Hm].
  cbn [app includes_list starts_with]. rewrite (IH Hm).
  assert (match m ++ post with
          | [] => false
          | b0 :: s' => Ascii.eqb b0 b && true
          end = false) as ->; [|by rewrite andb_false_r].
  destruct m as [|c' m]; simpl.
  - destruct post as [|c' post]; [done|]. simpl in Hpost.
    destruct (Ascii.eqb_spec c' b) as [->|_]; [done|]. done.
  - apply not_elem_of_cons in Hm as [Hne' _].
    destruct (Ascii.eqb_spec c' b) as [->|_]; done.
Qed.

(** A two character string [ab] does not occur in [pre ++ m ++ post] when
    [a] is neither in [pre] nor in [post], [b] is not in [m], and [post]
    does not start with [b]. *)
Lemma includes_pair_sandwich (a b : ascii) (pre m post : list ascii) :
  a ∉ pre → b ∉ m → a ∉ post → head post ≠ Some b →
  includes_list [a; b] (pre ++ m ++ post) = false.
Proof.
  intros Hpre Hm Hpost Hhd.
  rewrite includes_skip by done.
  rewrite includes_pair_skip by done.
  by apply includes_absent.
Qed.

Lemma includes_present (a : ascii) (s : list ascii) :
  includes_list [a] s = true → a ∈ s.
Proof.
  induction s as [|c s IH]; simpl; [done|].
  destruct (Ascii.eqb_spec c a) as [->|_]; simpl.
  - intros _. apply list_elem_of_here.
  - intros H. apply list_elem_of_further. auto.
Qed.

(** Two ways to cut a string at the first character outside a class cut
    it at the same place. *)
Lemma split_unique (p : ascii → bool) (l1 l2 r1 r2 : list ascii) (x y : ascii) :
  all p l1 → all p l2 → p x = false → p y = false →
  l1 ++ x :: r1 = l2 ++ y :: r2 → l1 = l2.
Proof.
  intros H1. revert l2. induction H1 as [|c l1 Hc _ IH]; intros l2 H2 Hx Hy E.
  - destruct H2 as [|c' l2 Hc' _]; [done|]. simpl in E. congruence.
  - destruct H2 as [|c' l2 Hc' H2]; simpl in E.
    + congruence.
    + injection E as -> E. f_equal. eauto.
Qed.

End StrFacts.

(** ** The seven patterns *)

Module PatternFacts.
Import Chars Regex Patterns Classes Analysis CharFacts RegexFacts Str StrFacts.

Lemma lang_month_name (m : list ascii) :
  lang month_name m → all letter_i m.
Proof. intros [H|H]; by apply lang_rep_class in H as [_ ?]. Qed.

Lemma letters_no_digit (m : list ascii) (x : ascii) :
  all letter_i m → letter_i x = false → x ∉ m.
Proof. apply all_not_in. Qed.

(** [H1] and [H2] occur in no string of a pattern made of a part without
    [H], a month name, and either nothing or a white space followed by a
    part without [H]. *)
Lemma no_half_dated (pre rest : regex) (x : ascii) (s : list ascii) :
  avoids "H" pre = true → avoids "H" rest = true →
  letter_i x = false → space x = false →
  lang (Seq pre (Seq month_name (Seq ws rest))) s →
  includes_list ["H"; x]%char s = false.
Proof.
  intros Hpre Hrest Hx Hsp (s1 & s2 & -> & H1 & m & s3 & -> & Hm & w & s4 & -> & Hw & H4).
  destruct Hw as (c & -> & Hc). change ([c] ++ s4) with (c :: s4).
  apply includes_pair_sandwich.
  - by apply (lang_avoids _ pre).
  - apply letters_no_digit; [by apply lang_month_name | done].
  - apply not_elem_of_cons. split.
    + intros <-. discriminate Hc.
    + by apply (lang_avoids _ rest).
  - simpl. intros [= <-]. congruence.
Qed.

Lemma no_half_ending (pre : regex) (x : ascii) (s : list ascii) :
  avoids "H" pre = true → letter_i x = false →
  lang (Seq pre month_name) s →
  includes_list ["H"; x]%char s = false.
Proof.
  intros Hpre Hx (s1 & m & -> & H1 & Hm).
  rewrite <- (app_nil_r m).
  apply includes_pair_sandwich.
  - by apply (lang_avoids _ pre).
  - apply letters_no_digit; [by apply lang_month_name | done].
  - apply not_elem_of_nil.
  - done.
Qed.

(** Reassociation of the sequences of the patterns, to expose the month
    name. *)
Lemma lang_seq_assoc (a b c : regex) (s : list ascii) :
  lang (Seq a (Seq b c)) s → lang (Seq (Seq a b) c) s.
Proof.
  intros (s1 & s2 & -> & H1 & s3 & s4 & -> & H3 & H4).
  exists (s1 ++ s3), s4. split; [by rewrite app_assoc|].
  split; [by exists s1, s3 | done].
Qed.

Lemma half_digit_facts (x : ascii) :
  half_digit x → letter_i x = false ∧ space x = false.
Proof. by intros [->| ->]. Qed.

(** No string of the seven patterns contains [H1] or [H2]. *)
Lemma no_half (r : regex) (x : ascii) (s : string) :
  r ∈ [year_tbd; year; month_tbd; month_vague; month; day; hour] →
  half_digit x →
  test r s = true → includes_list ["H"; x]%char (list_ascii_of_string s) = false.
Proof.
  intros Hr Hx Ht. apply test_lang in Ht.
  destruct (half_digit_facts x Hx) as [Hl Hs].
  set (l := list_ascii_of_string s) in *. clearbody l.
  repeat (apply elem_of_cons in Hr as [->|Hr]).
  - apply includes_absent. by apply (lang_avoids _ year_tbd).
  - apply includes_absent. by apply (lang_avoids _ year).
  - apply lang_seq_assoc in Ht. by apply (no_half_dated _ _ x) in Ht.
  - apply lang_seq_assoc, lang_seq_assoc, lang_seq_assoc in Ht.
    by apply (no_half_ending _ x) in Ht.
  - apply lang_seq_assoc in Ht. by apply (no_half_ending _ x) in Ht.
  - apply lang_seq_assoc in Ht. by apply (no_half_dated _ _ x) in Ht.
  - apply lang_seq_assoc in Ht. by apply (no_half_dated _ _ x) in Ht.
  - by apply elem_of_nil in Hr.
Qed.

End PatternFacts.

(** ** The classification cascade *)

Module CascadeFacts.
Import Chars Regex Patterns Classes Analysis Table CharFacts RegexFacts Str StrFacts PatternFacts Upcoming.

Lemma select_first (s : string) :
  select_branch s = List.find (λ b, branch_test b s) all_branches.
Proof.
  unfold select_branch, all_branches. cbn [List.find branch_test].
  repeat match goal with |- context [if ?b then _ else _] => destruct b end;
    reflexivity.
Qed.

Lemma includes_Q_absent (s : string) :
  "Q"%char ∉ list_ascii_of_string s → includes s "Q" = false.
Proof. intros H. by apply includes_absent. Qed.

Lemma no_h1 (r : regex) (s : string) :
  r ∈ [year_tbd; year; month_tbd; month_vague; month; day; hour] →
  test r s = true → includes s "H1" = false.
Proof.
  intros Hr Ht. unfold includes.
  change (list_ascii_of_string "H1") with ["H"; "1"]%char.
  apply (no_half r "1" s Hr); [by left | done].
Qed.

Lemma no_h2 (r : regex) (s : string) :
  r ∈ [year_tbd; year; month_tbd; month_vague; month; day; hour] →
  test r s = true → includes s "H2" = false.
Proof.
  intros Hr Ht. unfold includes.
  change (list_ascii_of_string "H2") with ["H"; "2"]%char.
  apply (no_half r "2" s Hr); [by right | done].
Qed.

Lemma row_pattern_known (r : row) (p : regex) :
  row_pattern r = Some p →
  p ∈ [year_tbd; year; month_tbd; month_vague; month; day; hour].
Proof.
  destruct r; intros [= <-]; rewrite !elem_of_cons; auto 10.
Qed.

Lemma row_pattern_test (r : row) (p : regex) (s : string) :
  row_pattern r = Some p → row_test r s = test p s.
Proof. by destruct r; intros [= <-]. Qed.

Lemma apart_spec (p1 p2 : regex) (s : string) :
  apart p1 p2 = true → test p1 s = true → test p2 s = false.
Proof.
  unfold apart, far. intros [H|H]%orb_true_iff.
  - exact (test_apart space p1 p2 s H).
  - exact (test_apart digit p1 p2 s H).
Qed.

Lemma pattern_profile (r : row) (p : regex) :
  row_pattern r = Some p →
  (bounds space p, bounds digit p) = row_profile r.
Proof.
  destruct r; cbn [row_pattern]; intros [= <-]; vm_compute; reflexivity.
Qed.

Lemma apart_table :
  ∀ r1 r2 p1 p2,
    row_pattern r1 = Some p1 → row_pattern r2 = Some p2 → r1 ≠ r2 →
    apart p1 p2 = true
    ∨ r1 = R_month_tbd ∧ r2 = R_month_vague
    ∨ r1 = R_month_vague ∧ r2 = R_month_tbd
    ∨ r1 = R_year_tbd ∧ r2 = R_month
    ∨ r1 = R_month ∧ r2 = R_year_tbd.
Proof.
  intros r1 r2 p1 p2 H1 H2 Hne.
  pose proof (pattern_profile r1 p1 H1) as E1.
  pose proof (pattern_profile r2 p2 H2) as E2.
  unfold apart.
  destruct (bounds space p1), (bounds digit p1), (bounds space p2), (bounds digit p2).
  destruct r1; cbn [row_pattern] in H1; try discriminate H1; clear H1;
    cbn [row_profile] in E1; injection E1 as -> -> -> ->;
    destruct r2; cbn [row_pattern] in H2; try discriminate H2; clear H2;
    cbn [row_profile] in E2; injection E2 as -> -> -> ->;
    try (exfalso; apply Hne; reflexivity);
    try (left; reflexivity);
    [do 3 right; left | right; left | do 2 right; left | do 4 right];
    split; reflexivity.
Qed.

(** A string of both [month_tbd] and [month_vague] has [early], [mid] or
    [late] for its month, so it has no [Q]. *)
Lemma tbd_vague_no_Q (s : string) :
  test month_tbd s = true → test month_vague s = true →
  "Q"%char ∉ list_ascii_of_string s.
Proof.
  intros H1%test_lang H2%test_lang.
  set (l := list_ascii_of_string s) in *. clearbody l.
  destruct H1 as (y & l1 & -> & Hy & w1 & l2 & -> & (c1 & -> & Hc1)
                  & m & l3 & -> & Hm & w2 & t & -> & (c2 & -> & Hc2) & Ht).
  destruct H2 as (y' & l1' & E & Hy' & w1' & l2' & -> & (c1' & -> & Hc1')
                  & v & l3' & -> & Hv & w2' & m' & -> & (c2' & -> & Hc2') & Hm').
  apply lang_rep_class in Hy as [Hly Hy], Hy' as [Hly' Hy'].
  apply app_inj_1 in E as [Ey E]; [|simpl in *; lia]. subst y'.
  simpl in E. injection E as Ec E. subst c1'.
  assert (Hva : all letter_i v).
  { assert (all (one_of (list_ascii_of_string "earlymidlate")) v) as Hv'.
    { destruct Hv as [Hv|[Hv|Hv]]; apply lang_word_i_all in Hv;
        (eapply all_weaken; [|exact Hv]); by vm_compute. }
    eapply all_weaken; [|exact Hv']. by vm_compute. }
  assert (m = v) as ->.
  { eapply (split_unique letter_i); [by apply lang_month_name | exact Hva | | | exact E].
    - destruct (letter_i c2) eqn:El; [|done].
      exfalso. revert Hc2 El. generalize c2.
      intros c. pose proof (subclass_spec space (λ c, negb (letter_i c)) eq_refl c) as Hs.
      intros Hc Hl. specialize (Hs Hc). simpl in Hs. by rewrite Hl in Hs.
    - destruct (letter_i c2') eqn:El; [|done].
      exfalso.
      pose proof (subclass_spec space (λ c, negb (letter_i c)) eq_refl c2' Hc2') as Hs.
      simpl in Hs. by rewrite El in Hs. }
  rewrite !elem_of_app, !elem_of_cons. intros [Hq|[[Hq|Hq]|[Hq|[[Hq|Hq]|Hq]]]].
  - by apply (all_not_in digit y "Q") in Hq.
  - subst c1. discriminate Hc1.
  - by apply elem_of_nil in Hq.
  - by apply (lang_avoids "Q" vague v) in Hq.
  - subst c2. discriminate Hc2.
  - by apply elem_of_nil in Hq.
  - by apply (lang_avoids "Q" (lit "TBD") t) in Hq.
Qed.

(** A string of a pattern is classified by that pattern when it has no
    [Q] and no earlier pattern accepts it. *)
Lemma no_Q_year_tbd (s : string) :
  test year_tbd s = true → includes s "Q" = false.
Proof.
  intros H%test_lang. apply includes_Q_absent. by apply (lang_avoids _ year_tbd).
Qed.

Lemma earlier_apart (r r' : row) (p p' : regex) (s : string) :
  row_pattern r = Some p → row_pattern r' = Some p' →
  r ≠ R_month_vague → r ≠ R_month → (row_index r' < row_index r)%nat →
  test p s = true → test p' s = false.
Proof.
  intros Hp Hp' Hv Hm Hlt Ht.
  destruct (apart_table r r' p p' Hp Hp') as [Ha|[[-> ->]|[[-> ->]|[[-> ->]|[-> ->]]]]].
  - intros ->. lia.
  - by eapply apart_spec.
  - simpl in Hlt. lia.
  - done.
  - simpl in Hlt. lia.
  - done.
Qed.

(** A string of a pattern that contains no [Q] is classified by that
    pattern, unless the pattern is [month_vague] or [month], which share
    strings with an earlier pattern. *)
Lemma selected_when_no_Q (r : row) (p : regex) (s : string) :
  row_pattern r = Some p → r ≠ R_month_vague → r ≠ R_month →
  test p s = true → includes s "Q" = false →
  ∃ b, select_branch s = Some b ∧ row_of b = r
       ∧ c_mdate (branch_body b s) = s.
Proof.
  intros Hp Hv Hm Ht HQ.
  pose proof (no_h1 p s (row_pattern_known r p Hp) Ht) as H1.
  pose proof (no_h2 p s (row_pattern_known r p Hp) Ht) as H2.
  assert (∀ r' p', row_pattern r' = Some p' → (row_index r' < row_index r)%nat →
                   test p' s = false) as Hearlier.
  { intros r' p' Hp' Hlt. by eapply (earlier_apart r r'). }
  unfold select_branch. rewrite HQ, H1, H2.
  destruct r; cbn [row_pattern] in Hp; try discriminate Hp; injection Hp as <-;
    try (exfalso; by (apply Hv || apply Hm)).
  - rewrite Ht. by exists B_year_tbd.
  - rewrite (Hearlier R_year_tbd _ eq_refl) by (simpl; lia).
    rewrite Ht. by exists B_year.
  - rewrite (Hearlier R_year_tbd _ eq_refl) by (simpl; lia).
    rewrite (Hearlier R_year _ eq_refl) by (simpl; lia).
    rewrite Ht. by exists B_month_tbd.
  - rewrite (Hearlier R_year_tbd _ eq_refl) by (simpl; lia).
    rewrite (Hearlier R_year _ eq_refl) by (simpl; lia).
    rewrite (Hearlier R_month_tbd _ eq_refl) by (simpl; lia).
    rewrite (Hearlier R_month_vague _ eq_refl) by (simpl; lia).
    rewrite (Hearlier R_month _ eq_refl) by (simpl; lia).
    rewrite Ht. by exists B_day.
  - rewrite (Hearlier R_year_tbd _ eq_refl) by (simpl; lia).
    rewrite (Hearlier R_year _ eq_refl) by (simpl; lia).
    rewrite (Hearlier R_month_tbd _ eq_refl) by (simpl; lia).
    rewrite (Hearlier R_month_vague _ eq_refl) by (simpl; lia).
    rewrite (Hearlier R_month _ eq_refl) by (simpl; lia).
    rewrite (Hearlier R_day _ eq_refl) by (simpl; lia).
    rewrite Ht. by exists B_hour.
Qed.

End CascadeFacts.

(** * Main results *)

Import Chars Regex Patterns Classes Analysis Table.
Import CharFacts RegexFacts StrFacts PatternFacts CascadeFacts Upcoming.

(** ** The date classifier *)

(** C9 (as amended).  The first three branches of the cascade test for a
    substring, not for a pattern anchored at both ends: a date that
    contains [Q] anywhere is classified [quarter], and a date that contains
    [H1] or [H2] anywhere and no [Q] is classified [half], whatever shape
    the date has and whichever of the later patterns it matches.  In both
    cases [tbd] and [is_tentative] are set. *)
Theorem substring_tests_first (s : string) :
  Str.includes s "Q" = true ∨ Str.includes s "H1" = true
    ∨ Str.includes s "H2" = true →
  ∃ c, classify s = Some c
       ∧ c_precision c = (if Str.includes s "Q" then "quarter" else "half")%string
       ∧ c_tbd c = true ∧ c_is_tentative c = true.
Proof.
  intros H. unfold classify, select_branch.
  destruct (Str.includes s "Q") eqn:HQ.
  { eexists. split; [reflexivity|]. by simpl. }
  destruct (Str.includes s "H1") eqn:H1.
  { eexists. split; [reflexivity|]. by simpl. }
  destruct (Str.includes s "H2") eqn:H2.
  { eexists. split; [reflexivity|]. by simpl. }
  destruct H as [?|[?|?]]; discriminate.
Qed.

Lemma substring_tests_first_witness :
  ∃ c, classify "2020 QQQ 4 12:00" = Some c
       ∧ c_precision c = "quarter"%string
       ∧ c_tbd c = true ∧ c_is_tentative c = true.
Proof.
  apply (substring_tests_first "2020 QQQ 4 12:00"). left. reflexivity.
Defined.

(** C9, the claim as it was stated fails: a date that contains [H1] and
    also [Q] is classified [quarter], not [half]. *)
Lemma half_token_after_Q :
  Str.includes "2020 Q H1" "H1" = true
  ∧ ¬ (∃ c, classify "2020 Q H1" = Some c ∧ c_precision c = "half"%string).
Proof.
  split; [reflexivity|]. intros (c & Hc & Hp).
  vm_compute in Hc. injection Hc as <-. discriminate Hp.
Qed.

(** C4 (as amended).  A date that passes the test of the quarter, half or
    year branches gets [is_tentative = true] and [tbd = true]; a date of
    the [hour] pattern that contains no [Q] gets [is_tentative = false] and
    [tbd = false]; a date of the [day] pattern that contains no [Q] gets
    [tbd = false]. *)
Theorem date_family_flags (s : string) :
  (Str.includes s "Q" = true ∨ Str.includes s "H1" = true
     ∨ Str.includes s "H2" = true
     ∨ test year_tbd s = true ∨ test year s = true →
   ∃ c, classify s = Some c ∧ c_is_tentative c = true ∧ c_tbd c = true)
  ∧ (test hour s = true → Str.includes s "Q" = false →
     classify s = Some (mk_classified s "hour" false false))
  ∧ (test day s = true → Str.includes s "Q" = false →
     classify s = Some (mk_classified s "day" false true)).
Proof.
  split; [|split].
  - intros H. unfold classify, select_branch.
    repeat match goal with
           | |- context [if ?b then _ else _] =>
               destruct b eqn:?; [eexists; split; [reflexivity|]; by simpl|]
           end.
    destruct H as [?|[?|[?|[?|?]]]]; congruence.
  - intros Ht HQ.
    destruct (selected_when_no_Q R_hour hour s eq_refl) as (b & Hb & Hr & _);
      [done..|].
    unfold classify. rewrite Hb. by destruct b.
  - intros Ht HQ.
    destruct (selected_when_no_Q R_day day s eq_refl) as (b & Hb & Hr & _);
      [done..|].
    unfold classify. rewrite Hb. by destruct b.
Qed.

Lemma date_family_flags_witness :
  (∃ c, classify "2020 H2" = Some c ∧ c_is_tentative c = true ∧ c_tbd c = true)
  ∧ classify "2020 Nov 4 [14:10]"
    = Some (mk_classified "2020 Nov 4 [14:10]" "hour" false false)
  ∧ classify "2020 Nov 4" = Some (mk_classified "2020 Nov 4" "day" false true).
Proof.
  split; [|split].
  - apply (proj1 (date_family_flags "2020 H2")).
    right. right. left. reflexivity.
  - apply (proj1 (proj2 (date_family_flags "2020 Nov 4 [14:10]"))); reflexivity.
  - apply (proj2 (proj2 (date_family_flags "2020 Nov 4"))); reflexivity.
Defined.

(** C4, the claim as it was stated fails: the month of the [hour] pattern
    is any three to nine letters, so a date of that pattern may contain
    [Q]; it is then classified by the first branch, with both flags set. *)
Lemma hour_pattern_with_Q :
  test hour "2020 QQQ 4 12:00" = true
  ∧ ¬ (∃ c, classify "2020 QQQ 4 12:00" = Some c
            ∧ c_is_tentative c = false ∧ c_tbd c = false).
Proof.
  split; [reflexivity|]. intros (c & Hc & Hp & _).
  vm_compute in Hc. injection Hc as <-. discriminate Hp.
Qed.

Lemma later_row_has_pattern (r1 r2 : row) :
  (row_index r1 < row_index r2)%nat →
  r2 ≠ R_half → ∃ p, row_pattern r2 = Some p.
Proof.
  intros Hlt Hh. destruct r2; simpl in *; eauto; [lia | done].
Qed.

Lemma quarter_selected (s : string) :
  Str.includes s "Q" = true → select_branch s = Some B_quarter.
Proof. intros H. unfold select_branch. by rewrite H. Qed.

(** Of two rows of the table that both accept a date, the earlier one
    classifies it. *)
Lemma earlier_row_wins (r1 r2 : row) (s : string) :
  (row_index r1 < row_index r2)%nat →
  row_test r1 s = true → row_test r2 s = true →
  row_of <$> select_branch s = Some r1.
Proof.
  intros Hlt H1 H2.
  destruct (row_pattern r1) as [p1|] eqn:E1.
  - (* the earlier row is a pattern, and so is the later one *)
    destruct (later_row_has_pattern r1 r2 Hlt) as [p2 E2].
    { intros ->. destruct r1; simpl in *; (lia || discriminate). }
    rewrite (row_pattern_test r1 p1 s E1) in H1.
    rewrite (row_pattern_test r2 p2 s E2) in H2.
    assert (r1 ≠ r2) as Hne by (intros ->; lia).
    assert (Str.includes s "Q" = false ∧ r1 ≠ R_month_vague ∧ r1 ≠ R_month)
      as (HQ & Hv & Hm).
    { destruct (apart_table r1 r2 p1 p2 E1 E2 Hne)
        as [Ha|[[-> ->]|[[-> ->]|[[-> ->]|[-> ->]]]]].
      - rewrite (apart_spec p1 p2 s Ha H1) in H2. discriminate.
      - injection E1 as <-. injection E2 as <-.
        split; [|done]. by apply includes_Q_absent, tbd_vague_no_Q.
      - simpl in Hlt. lia.
      - injection E1 as <-. split; [|done]. by apply no_Q_year_tbd.
      - simpl in Hlt. lia. }
    destruct (selected_when_no_Q r1 p1 s E1 Hv Hm H1 HQ) as (b & -> & <- & _).
    reflexivity.
  - (* the earlier row is a substring test *)
    destruct r1; try discriminate E1.
    + rewrite quarter_selected; done.
    + destruct (later_row_has_pattern R_half r2 Hlt) as [p2 E2].
      { intros ->. simpl in Hlt. lia. }
      rewrite (row_pattern_test r2 p2 s E2) in H2.
      pose proof (no_h1 p2 s (row_pattern_known r2 p2 E2) H2) as N1.
      pose proof (no_h2 p2 s (row_pattern_known r2 p2 E2) H2) as N2.
      simpl in H1. rewrite N1, N2 in H1. discriminate.
Qed.



(** ** One iteration of the inner loop *)

Section IterationFacts.

Context (partial_ratio : string → string → Z) (moment : Type)
  (moment_parse : string → list string → moment)
  (moment_tz : moment → string → moment)
  (moment_format : moment → string)
  (moment_year moment_unix : moment → Z)
  (moment_toISOString : moment → string).

Local Abbreviation iteration :=
  (Upcoming.iteration partial_ratio moment moment_parse moment_tz moment_format
     moment_year moment_unix moment_toISOString).
Local Abbreviation build_update :=
  (Upcoming.build_update moment moment_parse moment_tz moment_format
     moment_year moment_unix moment_toISOString).
Local Abbreviation calculated_times :=
  (Upcoming.calculated_times moment moment_parse moment_tz moment_format
     moment_year moment_unix moment_toISOString).

Lemma build_update_flight_numbers base sites pads payload pi mp mi d c st :
  flight_numbers (build_update base sites pads payload pi mp mi d c st)
  = flight_numbers st ++ [base + Z.of_nat mi].
Proof. reflexivity. Qed.

Lemma build_update_promises base sites pads payload pi mp mi d c st :
  ∃ t, promises (build_update base sites pads payload pi mp mi d c st)
       = promises st ++ [mk_update payload t]
     ∧ flight_number t = base + Z.of_nat mi
     ∧ is_tentative t = c_is_tentative c
     ∧ tbd t = c_tbd c
     ∧ tentative_max_precision t = Some (c_precision c)
     ∧ launch_date_local t
       = moment_format
           (moment_tz (moment_parse (parsed_date d) moment_formats)
              (time_zone (mjoin (sites !! pi))))
     ∧ launch_site_site_id t = site_id (launch_site (pads !! mi))
     ∧ launch_site_site_name t = site_name (launch_site (pads !! mi))
     ∧ launch_site_site_name_long t = site_name_long (launch_site (pads !! mi)).
Proof.
  eexists. split; [reflexivity|]. simpl.
  rewrite lookup_insert_eq. repeat split; reflexivity.
Qed.

Lemma build_update_console base sites pads payload pi mp mi d c st :
  ∃ t, console (build_update base sites pads payload pi mp mi d c st)
       = console st ++ [Log_text d; Log_text (payload +:+ " : " +:+ mp);
                        Log_value (pads !! mi); Log_times t; Log_text ""].
Proof.
  eexists. unfold Upcoming.build_update. simpl.
  rewrite <- !app_assoc. reflexivity.
Qed.

Lemma console_log_neq (e : log_entry) (st : state) : console_log e st ≠ st.
Proof.
  intros H. apply (f_equal (λ s, length (console s))) in H.
  simpl in H. rewrite length_app in H. simpl in H. lia.
Qed.

Lemma build_update_neq base sites pads payload pi mp mi d c st :
  build_update base sites pads payload pi mp mi d c st ≠ st.
Proof.
  intros H. apply (f_equal (λ s, length (flight_numbers s))) in H.
  rewrite build_update_flight_numbers, length_app in H. simpl in H. lia.
Qed.

Lemma classify_none (d : string) :
  classify d = None ↔ ∀ b, branch_test b d = false.
Proof.
  unfold classify. rewrite fmap_None, select_first. split.
  - intros H b. apply List.find_none with (x := b) in H; [done|].
    destruct b; unfold all_branches; simpl; tauto.
  - intros H. unfold all_branches. cbn [List.find]. by rewrite !H.
Qed.


(** C8.  When the score is 100 and the date of the manifest row passes
    none of the tests of the cascade, the callback logs the failure and
    returns: nothing is thrown, no flight number and no update are pushed,
    [precision] is untouched, and the loop goes on with the next row from
    that state. *)
Theorem unmatched_date_skipped base sites dates pads payload pi mp mi d st
    (rest : list string) :
  partial_ratio payload mp = 100 →
  dates !! mi = Some d →
  (∀ b, branch_test b d = false) →
  let st' := console_log (Log_text not_found_message) st in
  iteration base sites dates pads payload pi mp mi st = Some st'
  ∧ flight_numbers st' = flight_numbers st
  ∧ promises st' = promises st
  ∧ precision st' = precision st
  ∧ forEach_from (iteration base sites dates pads payload pi) (mp :: rest) mi st
    = forEach_from (iteration base sites dates pads payload pi) rest (S mi) st'.
Proof.
  intros Hs Hd Hb st'.
  assert (iteration base sites dates pads payload pi mp mi st = Some st') as E.
  { unfold Upcoming.iteration. rewrite Hs, Hd. simpl.
    apply classify_none in Hb. by rewrite Hb. }
  repeat split; [done|]. simpl. by rewrite E.
Qed.

End IterationFacts.

(** ** The manifest arrays *)

Module ManifestFacts.
Import Upcoming.

Lemma phase_succ (i : nat) : (S i mod 8 = (i mod 8 + 1) mod 8)%nat.
Proof. replace (S i) with (i + 1)%nat by lia. by rewrite Nat.Div0.add_mod_idemp_l. Qed.

Lemma phase_plus_3 (i : nat) : ((i + 3) mod 8 = (i mod 8 + 3) mod 8)%nat.
Proof. by rewrite Nat.Div0.add_mod_idemp_l. Qed.

(** Payloads sit five cells after the dates, so there are never more
    payloads than dates. *)
Lemma payloads_le_dates (row : list string) (i : nat) :
  (length (filter_index_from (λ index, (index + 3) mod 8 =? 0) row i)
   ≤ length (filter_index_from (λ index, index mod 8 =? 0) row i)
     + (if (1 <=? i mod 8) && (i mod 8 <=? 5) then 1 else 0))%nat.
Proof.
  revert i. induction row as [|x row IH]; intros i; [simpl; case_match; lia|].
  cbn [filter_index_from]. specialize (IH (S i)).
  rewrite phase_succ in IH. rewrite phase_plus_3.
  pose proof (Nat.mod_upper_bound i 8 ltac:(lia)) as Hlt.
  destruct (i mod 8)%nat as [|[|[|[|[|[|[|[|r]]]]]]]] eqn:E;
    try lia; simpl in *; lia.
Qed.

Lemma manifest_dates_cover (row : list string) :
  (length (manifest_payloads row) ≤ length (manifest_dates row))%nat.
Proof.
  pose proof (payloads_le_dates row 0) as H.
  change ((if (1 <=? 0 mod 8)%nat && (0 mod 8 <=? 5)%nat then 1 else 0)%nat)
    with 0%nat in H.
  unfold manifest_payloads, manifest_dates, filter_index. lia.
Qed.

End ManifestFacts.

(** ** Duplicate flight numbers *)

Module DuplicateFacts.
Import Upcoming.

Lemma set_add_length (a acc : list Z) :
  (length (foldl set_add acc a) ≤ length acc + length a)%nat
  ∧ (length (foldl set_add acc a) = (length acc + length a)%nat
     ↔ NoDup a ∧ ∀ x, x ∈ a → x ∉ acc).
Proof.
  revert acc. induction a as [|x a IH]; intros acc; simpl.
  - split; [lia|]. split; [|lia]. intros _. split; [constructor|].
    intros x Hx. by apply elem_of_nil in Hx.
  - unfold set_add at 2 4. case_bool_decide as Hx.
    + destruct (IH acc) as [Hle _]. split; [lia|]. split; [lia|].
      intros [_ Hn]. exfalso. apply (Hn x); [apply list_elem_of_here | done].
    + destruct (IH (acc ++ [x])) as [Hle Heq]. rewrite length_app in *. simpl in *.
      split; [lia|].
      replace (length acc + S (length a))%nat with (length acc + 1 + length a)%nat by lia.
      rewrite Heq, NoDup_cons. split.
      * intros [Hnd Hn]. split; [split; [|done]|].
        -- intros Hin. apply (Hn x Hin). apply elem_of_app. right. apply list_elem_of_here.
        -- intros y [->|Hy]%elem_of_cons; [done|].
           intros Hacc. apply (Hn y Hy). apply elem_of_app. by left.
      * intros [[Hxa Hnd] Hn]. split; [done|].
        intros y Hy [Hacc|Hyx]%elem_of_app.
        -- apply (Hn y); [by apply list_elem_of_further | done].
        -- apply list_elem_of_singleton in Hyx as ->. done.
Qed.

(** The test of line 231 holds exactly when some flight number occurs
    twice. *)
Lemma has_duplicates_spec (a : list Z) :
  has_duplicates a = true ↔ ¬ NoDup a.
Proof.
  unfold has_duplicates, set_of.
  destruct (set_add_length a []) as [Hle Heq]. simpl in *.
  rewrite Nat.ltb_lt. split.
  - intros Hlt Hnd. assert (length (foldl set_add [] a) = length a); [|lia].
    apply Heq. split; [done|]. intros x _. apply not_elem_of_nil.
  - intros Hnd. destruct (decide (length (foldl set_add [] a) = length a)) as [E|E]; [|lia].
    apply Heq in E as [? _]. done.
Qed.

Lemma not_NoDup_length (a : list Z) : ¬ NoDup a → (2 ≤ length a)%nat.
Proof.
  destruct a as [|x [|y a]]; simpl; intros H; [| |lia]; exfalso; apply H.
  - constructor.
  - apply NoDup_singleton.
Qed.

End DuplicateFacts.

(** ** The two loops *)

Section LoopFacts.

Context (partial_ratio : string → string → Z) (moment : Type)
  (moment_parse : string → list string → moment)
  (moment_tz : moment → string → moment)
  (moment_format : moment → string)
  (moment_year moment_unix : moment → Z)
  (moment_toISOString : moment → string)
  (nModified : nat → update → Z).

Local Abbreviation iteration :=
  (Upcoming.iteration partial_ratio moment moment_parse moment_tz moment_format
     moment_year moment_unix moment_toISOString).
Local Abbreviation build_update :=
  (Upcoming.build_update moment moment_parse moment_tz moment_format
     moment_year moment_unix moment_toISOString).
Local Abbreviation loops :=
  (Upcoming.loops partial_ratio moment moment_parse moment_tz moment_format
     moment_year moment_unix moment_toISOString).
Local Abbreviation run :=
  (Upcoming.run partial_ratio moment moment_parse moment_tz moment_format
     moment_year moment_unix moment_toISOString nModified).
Local Abbreviation issues := (Upcoming.issues partial_ratio).
Local Abbreviation issued_from := (Upcoming.issued_from partial_ratio).
Local Abbreviation issued := (Upcoming.issued partial_ratio).
Local Abbreviation all_issued := (Upcoming.all_issued partial_ratio).

Lemma build_update_summary base sites pads payload pi mp mi d c st :
  summary <$> promises (build_update base sites pads payload pi mp mi d c st)
  = (summary <$> promises st) ++ [(payload, base + Z.of_nat mi)].
Proof.
  destruct (build_update_promises moment moment_parse moment_tz moment_format
              moment_year moment_unix moment_toISOString
              base sites pads payload pi mp mi d c st) as (t & -> & Hn & _).
  rewrite fmap_app. simpl. unfold summary at 2. simpl. by rewrite Hn.
Qed.

(** One iteration, in terms of [issues]. *)
Lemma iteration_issues base sites dates pads payload pi mp mi st :
  is_Some (dates !! mi) →
  ∃ st', iteration base sites dates pads payload pi mp mi st = Some st'
    ∧ summary <$> promises st'
      = (summary <$> promises st)
        ++ (if issues dates payload mp mi then [(payload, base + Z.of_nat mi)] else [])
    ∧ flight_numbers st'
      = flight_numbers st
        ++ (if issues dates payload mp mi then [base + Z.of_nat mi] else []).
Proof.
  intros [d Hd]. unfold Upcoming.iteration, Upcoming.issues. rewrite Hd.
  destruct (partial_ratio payload mp =? 100); simpl.
  - destruct (classify d) as [c|] eqn:Ec.
    + eexists. split; [reflexivity|].
      rewrite bool_decide_eq_true_2 by eauto.
      split; [apply build_update_summary | reflexivity].
    + eexists. split; [reflexivity|].
      rewrite bool_decide_eq_false_2 by (by intros [? ?]).
      simpl. by rewrite !app_nil_r.
  - eexists. split; [reflexivity|]. by rewrite !app_nil_r.
Qed.

(** The inner loop over the manifest payloads, for one payload. *)
Lemma inner_loop base sites dates pads payload pi labels i st :
  (i + length labels ≤ length dates)%nat →
  ∃ st', forEach_from (iteration base sites dates pads payload pi) labels i st
         = Some st'
    ∧ summary <$> promises st'
      = (summary <$> promises st)
        ++ numbered base payload (issued_from dates payload labels i)
    ∧ flight_numbers st'
      = flight_numbers st
        ++ (numbered base payload (issued_from dates payload labels i)).*2.
Proof.
  revert i st. induction labels as [|mp labels IH]; intros i st Hlen.
  - exists st. simpl. by rewrite !app_nil_r.
  - simpl in Hlen.
    destruct (iteration_issues base sites dates pads payload pi mp i st)
      as (st1 & E1 & Hp1 & Hf1).
    { apply lookup_lt_is_Some. lia. }
    destruct (IH (S i) st1) as (st2 & E2 & Hp2 & Hf2); [lia|].
    exists st2. cbn [forEach_from Upcoming.issued_from]. rewrite E1.
    split; [done|]. rewrite Hp2, Hp1, Hf2, Hf1.
    destruct (issues dates payload mp i); simpl;
      by rewrite <- !app_assoc.
Qed.

(** The outer loop over the payloads. *)
Lemma outer_loop base sites row payloads pi st :
  ∃ st', forEach_from
           (λ payload payload_index,
              forEach
                (iteration base sites (manifest_dates row)
                   (manifest_launchpads row) payload payload_index)
                (manifest_payloads row))
           payloads pi st = Some st'
    ∧ summary <$> promises st'
      = (summary <$> promises st) ++ all_issued base row payloads
    ∧ flight_numbers st'
      = flight_numbers st ++ (all_issued base row payloads).*2.
Proof.
  revert pi st. induction payloads as [|p payloads IH]; intros pi st.
  - exists st. simpl. by rewrite !app_nil_r.
  - destruct (inner_loop base sites (manifest_dates row) (manifest_launchpads row)
                p pi (manifest_payloads row) 0 st) as (st1 & E1 & Hp1 & Hf1).
    { pose proof (ManifestFacts.manifest_dates_cover row). lia. }
    destruct (IH (S pi) st1) as (st2 & E2 & Hp2 & Hf2).
    exists st2. cbn [forEach_from]. unfold forEach at 1. rewrite E1.
    split; [done|]. rewrite Hp2, Hp1, Hf2, Hf1.
    unfold Upcoming.all_issued. cbn [flat_map]. rewrite fmap_app.
    by rewrite <- !app_assoc.
Qed.

(** The loops never throw; they push one update and one flight number for
    every payload and every manifest row at which [issues] holds, payload
    by payload and, for a payload, in the order of the manifest. *)
Lemma loops_spec base payloads sites row :
  ∃ st, loops base payloads sites row = Some st
    ∧ summary <$> promises st = all_issued base row payloads
    ∧ flight_numbers st = (all_issued base row payloads).*2.
Proof.
  destruct (outer_loop base sites row payloads 0 initial) as (st & E & Hp & Hf).
  exists st. done.
Qed.

Lemma loops_lengths base payloads sites row st :
  loops base payloads sites row = Some st →
  length (promises st) = length (flight_numbers st).
Proof.
  intros E. destruct (loops_spec base payloads sites row) as (st' & E' & Hp & Hf).
  rewrite E in E'. injection E' as <-.
  rewrite Hf, length_fmap, <- Hp, length_fmap. done.
Qed.

End LoopFacts.

(** ** The base flight number *)

Module BaseFacts.
Import Upcoming.

#[local] Instance desc_trans : Transitive desc.
Proof. unfold desc. intros a b c ? ?. lia. Qed.

#[local] Instance desc_total : Total desc.
Proof. unfold desc. intros a b. lia. Qed.

Lemma find_past_elem (col : list Doc.launch) (l : Doc.launch) :
  l ∈ find_past col ↔ l ∈ col ∧ Doc.upcoming l = false.
Proof.
  unfold find_past. rewrite merge_sort_Permutation, list_elem_of_filter.
  tauto.
Qed.

(** The head of the past launches, sorted by decreasing flight number, has
    the greatest flight number of them. *)
Lemma base_flight_number_spec (col : list Doc.launch) :
  match base_flight_number col with
  | None => ∀ l, l ∈ col → Doc.upcoming l = true
  | Some base =>
      ∃ l, l ∈ col ∧ Doc.upcoming l = false
           ∧ base = Doc.flight_number l + 1
           ∧ ∀ l', l' ∈ col → Doc.upcoming l' = false →
                   Doc.flight_number l' ≤ Doc.flight_number l
  end.
Proof.
  unfold base_flight_number.
  pose proof (find_past_elem col) as Hel.
  pose proof (StronglySorted_merge_sort desc
                (filter (λ l, Doc.upcoming l = false) col)) as Hs.
  fold (find_past col) in Hs.
  destruct (find_past col) as [|l past].
  - intros l Hl. destruct (Doc.upcoming l) eqn:E; [done|].
    exfalso. eapply not_elem_of_nil, Hel. eauto.
  - exists l. destruct (proj1 (Hel l) (list_elem_of_here _ _)) as [Hin Hup].
    repeat split; [done..|]. intros l' Hin' Hup'.
    assert (l' ∈ l :: past) as [->|Hp]%elem_of_cons by (apply Hel; auto); [lia|].
    apply StronglySorted_inv in Hs as [_ Hall].
    rewrite Forall_forall in Hall. by apply Hall.
Qed.

End BaseFacts.

(** ** Lists of repeated elements *)

Module RepeatFacts.

Section Repeats.
Context {A : Type} (n : A → nat).

Local Abbreviation repeats := (Upcoming.repeats n).

Lemma repeats_elem (ps : list A) (x : A) : x ∈ repeats ps → x ∈ ps.
Proof.
  induction ps as [|p ps IH]; simpl; [done|].
  rewrite elem_of_app. intros [H|H].
  - apply elem_of_replicate in H as [-> _]. apply list_elem_of_here.
  - apply list_elem_of_further. auto.
Qed.

Lemma repeats_nil (ps : list A) :
  repeats ps = [] ↔ ∀ p, p ∈ ps → n p = 0%nat.
Proof.
  induction ps as [|p ps IH]; simpl.
  - split; [|done]. intros _ p Hp. by apply elem_of_nil in Hp.
  - rewrite app_nil, IH. split.
    + intros [Hr Hps] q [->|Hq]%elem_of_cons; [|by apply Hps].
      destruct (n p); [done | discriminate Hr].
    + intros H. split.
      * rewrite (H p (list_elem_of_here _ _)). done.
      * intros q Hq. apply H. by apply list_elem_of_further.
Qed.

(** For distinct elements, the repetitions of a list are a prefix of the
    list exactly when its elements are taken once up to some position and
    not at all from there on. *)
Lemma repeats_prefix (ps : list A) :
  NoDup ps →
  repeats ps `prefix_of` ps
  ↔ ∃ m, ∀ i p, ps !! i = Some p → n p = if (i <? m)%nat then 1%nat else 0%nat.
Proof.
  induction ps as [|p ps IH]; intros Hnd.
  - split; [|intros _; apply prefix_nil]. intros _. exists 0%nat. by intros i p.
  - apply NoDup_cons in Hnd as [Hp Hnd]. specialize (IH Hnd).
    unfold Upcoming.repeats. cbn [flat_map]. fold (repeats ps). split.
    + intros Hpre. destruct (n p) as [|[|k]] eqn:En; simpl in Hpre.
      * (* no copy of the head: nothing may follow *)
        assert (repeats ps = []) as Hnil.
        { destruct (repeats ps) as [|x r] eqn:Er; [done|]. exfalso.
          assert (x ∈ ps) as Hx by (apply repeats_elem; rewrite Er; apply list_elem_of_here).
          destruct Hpre as [k Hk]. simpl in Hk. injection Hk as -> _. done. }
        exists 0%nat. intros i q Hq. simpl.
        destruct i as [|i]; simpl in Hq; [by injection Hq as <-|].
        apply (proj1 (repeats_nil ps) Hnil). by eapply list_elem_of_lookup_2.
      * apply prefix_cons_inv_2 in Hpre. apply IH in Hpre as [m Hm].
        exists (S m). intros [|i] q Hq; simpl in Hq.
        -- by injection Hq as <-.
        -- by apply Hm.
      * exfalso. apply prefix_cons_inv_2 in Hpre.
        destruct Hpre as [k' Hk]. simpl in Hk. apply Hp. rewrite Hk.
        apply list_elem_of_here.
    + intros [m Hm]. pose proof (Hm 0%nat p eq_refl) as H0.
      destruct m as [|m]; simpl in H0; rewrite H0; simpl.
      * assert (repeats ps = []) as ->; [|apply prefix_nil].
        apply repeats_nil. intros q [i Hi]%list_elem_of_lookup_1.
        by apply (Hm (S i)).
      * apply prefix_cons, IH. exists m. intros i q Hq. by apply (Hm (S i)).
Qed.

End Repeats.

Lemma prefix_of_lookups {A : Type} (l1 l2 : list A) :
  l1 `prefix_of` l2 ↔ ∀ i x, l1 !! i = Some x → l2 !! i = Some x.
Proof.
  split.
  - intros Hpre i x Hx. by eapply prefix_lookup_Some.
  - revert l2. induction l1 as [|a l1 IH]; intros l2 H; [apply prefix_nil|].
    destruct l2 as [|b l2].
    + specialize (H 0%nat a eq_refl). done.
    + pose proof (H 0%nat a eq_refl) as H0. simpl in H0. injection H0 as ->.
      apply prefix_cons, IH. intros i x Hx. by apply (H (S i)).
Qed.

End RepeatFacts.

(** ** Sites, time zones, flight numbers and the report *)

Lemma known_pad_site (pad : option string) :
  pad ∈ Some <$> known_pads ↔ launch_site pad ≠ mk_site None None None.
Proof.
  split.
  - intros (label & -> & Hl)%list_elem_of_fmap.
    unfold known_pads in Hl. rewrite !elem_of_cons in Hl.
    destruct Hl as [->|[->|[->|[->|[->|[->|[->|[->|[->|[->|Hl]]]]]]]]]];
      try discriminate.
    by apply elem_of_nil in Hl.
  - intros Hs. apply dec_stable. intros Hn. apply Hs.
    unfold launch_site, is_pad.
    rewrite !bool_decide_eq_false_2; [done|..];
      intros ->; apply Hn; apply list_elem_of_fmap; eexists; (split; [reflexivity|]);
      unfold known_pads; rewrite !elem_of_cons; auto 20.
Qed.

Lemma time_zone_other (location : option string) :
  location ∉ [Some "ccafs_slc_40"; Some "ksc_lc_39a"; Some "ccafs_lc_13";
              Some "vafb_slc_4e"; Some "vafb_slc_4w"]%string →
  time_zone location = "America/Chicago"%string.
Proof.
  intros Hn. unfold time_zone.
  rewrite !bool_decide_eq_false_2; [done|..];
    intros ->; apply Hn; rewrite !elem_of_cons; auto 10.
Qed.

Section ScriptFacts.

Context (partial_ratio : string → string → Z) (moment : Type)
  (moment_parse : string → list string → moment)
  (moment_tz : moment → string → moment)
  (moment_format : moment → string)
  (moment_year moment_unix : moment → Z)
  (moment_toISOString : moment → string)
  (nModified : nat → update → Z).

Local Abbreviation iteration :=
  (Upcoming.iteration partial_ratio moment moment_parse moment_tz moment_format
     moment_year moment_unix moment_toISOString).
Local Abbreviation loops :=
  (Upcoming.loops partial_ratio moment moment_parse moment_tz moment_format
     moment_year moment_unix moment_toISOString).
Local Abbreviation run :=
  (Upcoming.run partial_ratio moment moment_parse moment_tz moment_format
     moment_year moment_unix moment_toISOString nModified).
Local Abbreviation report := (Upcoming.report nModified).
Local Abbreviation report_line := (Upcoming.report_line nModified).
Local Abbreviation issued := (Upcoming.issued partial_ratio).
Local Abbreviation all_issued := (Upcoming.all_issued partial_ratio).

(** An iteration whose score is 100 and whose date is classified pushes
    one update. *)
Lemma iteration_pushes base sites dates pads payload pi mp mi d c st :
  partial_ratio payload mp = 100 → dates !! mi = Some d → classify d = Some c →
  ∃ st' t,
    iteration base sites dates pads payload pi mp mi st = Some st'
    ∧ promises st' = promises st ++ [mk_update payload t]
    ∧ flight_numbers st' = flight_numbers st ++ [base + Z.of_nat mi]
    ∧ flight_number t = base + Z.of_nat mi
    ∧ launch_date_local t
      = moment_format
          (moment_tz (moment_parse (parsed_date d) moment_formats)
             (time_zone (mjoin (sites !! pi))))
    ∧ launch_site_site_id t = site_id (launch_site (pads !! mi))
    ∧ launch_site_site_name t = site_name (launch_site (pads !! mi))
    ∧ launch_site_site_name_long t = site_name_long (launch_site (pads !! mi)).
Proof.
  intros Hs Hd Hc.
  destruct (build_update_promises moment moment_parse moment_tz moment_format
              moment_year moment_unix moment_toISOString
              base sites pads payload pi mp mi d c st)
    as (t & Hp & Hn & _ & _ & _ & Hl & H1 & H2 & H3).
  eexists _, t. unfold Upcoming.iteration. rewrite Hs, Hd, Hc. simpl Z.eqb. cbv iota.
  split; [reflexivity|]. split; [exact Hp|]. done.
Qed.

(** C6.  The local time of an update is formatted in the time zone of the
    site the internal record already has ([sites[payload_index]]), whatever
    the launchpad of the manifest row is; the zone is America/New_York for
    [ccafs_slc_40], [ksc_lc_39a] and [ccafs_lc_13], America/Los_Angeles for
    [vafb_slc_4e] and [vafb_slc_4w], and America/Chicago for every other
    value, a missing one included. *)
Theorem local_time_zone base sites dates pads payload pi mp mi d c st :
  partial_ratio payload mp = 100 → dates !! mi = Some d → classify d = Some c →
  (∃ st' t,
     iteration base sites dates pads payload pi mp mi st = Some st'
     ∧ promises st' = promises st ++ [mk_update payload t]
     ∧ launch_date_local t
       = moment_format
           (moment_tz (moment_parse (parsed_date d) moment_formats)
              (time_zone (mjoin (sites !! pi))))
     ∧ launch_site_site_id t = site_id (launch_site (pads !! mi)))
  ∧ time_zone (Some "ccafs_slc_40"%string) = "America/New_York"%string
  ∧ time_zone (Some "ksc_lc_39a"%string) = "America/New_York"%string
  ∧ time_zone (Some "ccafs_lc_13"%string) = "America/New_York"%string
  ∧ time_zone (Some "vafb_slc_4e"%string) = "America/Los_Angeles"%string
  ∧ time_zone (Some "vafb_slc_4w"%string) = "America/Los_Angeles"%string
  ∧ time_zone None = "America/Chicago"%string
  ∧ (∀ location,
       location ∉ [Some "ccafs_slc_40"; Some "ksc_lc_39a"; Some "ccafs_lc_13";
                   Some "vafb_slc_4e"; Some "vafb_slc_4w"]%string →
       time_zone location = "America/Chicago"%string).
Proof.
  intros Hs Hd Hc. split.
  - destruct (iteration_pushes base sites dates pads payload pi mp mi d c st Hs Hd Hc)
      as (st' & t & E & Hp & _ & _ & Hl & H1 & _).
    by exists st', t.
  - repeat split; try reflexivity. exact time_zone_other.
Qed.

(** C7.  The launch site is found by comparing the launchpad of the
    manifest row with ten fixed labels: ["SLC-40 / LC-39A"] gives
    [ccafs_slc_40]; any other value, a missing launchpad included, gives
    three null site fields, and the iteration still pushes its update, with
    these null fields. *)
Theorem unknown_launchpad_null_site base sites dates pads payload pi mp mi d c st :
  partial_ratio payload mp = 100 → dates !! mi = Some d → classify d = Some c →
  launch_site (Some "SLC-40 / LC-39A"%string)
  = mk_site (Some "ccafs_slc_40"%string) (Some "CCAFS SLC 40"%string)
      (Some "Cape Canaveral Air Force Station Space Launch Complex 40"%string)
  ∧ launch_site (Some "unknown-pad"%string) = mk_site None None None
  ∧ (∀ pad, pad ∉ Some <$> known_pads ↔ launch_site pad = mk_site None None None)
  ∧ (pads !! mi ∉ Some <$> known_pads →
     ∃ st' t,
       iteration base sites dates pads payload pi mp mi st = Some st'
       ∧ promises st' = promises st ++ [mk_update payload t]
       ∧ launch_site_site_id t = None
       ∧ launch_site_site_name t = None
       ∧ launch_site_site_name_long t = None).
Proof.
  intros Hs Hd Hc. split; [reflexivity|]. split; [reflexivity|]. split.
  - intros pad. rewrite known_pad_site. split.
    + intros H. by apply dec_stable.
    + intros H Hn. done.
  - intros Hn.
    destruct (iteration_pushes base sites dates pads payload pi mp mi d c st Hs Hd Hc)
      as (st' & t & E & Hp & _ & _ & _ & H1 & H2 & H3).
    exists st', t. rewrite H1, H2, H3.
    assert (launch_site (pads !! mi) = mk_site None None None) as ->.
    { apply dec_stable. intros Hne. by apply Hn, known_pad_site. }
    done.
Qed.

End ScriptFacts.

Section RunFacts.

Context (partial_ratio : string → string → Z) (moment : Type)
  (moment_parse : string → list string → moment)
  (moment_tz : moment → string → moment)
  (moment_format : moment → string)
  (moment_year moment_unix : moment → Z)
  (moment_toISOString : moment → string)
  (nModified : nat → update → Z).

Local Abbreviation iteration :=
  (Upcoming.iteration partial_ratio moment moment_parse moment_tz moment_format
     moment_year moment_unix moment_toISOString).
Local Abbreviation loops :=
  (Upcoming.loops partial_ratio moment moment_parse moment_tz moment_format
     moment_year moment_unix moment_toISOString).
Local Abbreviation run :=
  (Upcoming.run partial_ratio moment moment_parse moment_tz moment_format
     moment_year moment_unix moment_toISOString nModified).
Local Abbreviation report := (Upcoming.report nModified).
Local Abbreviation report_line := (Upcoming.report_line nModified).
Local Abbreviation issued := (Upcoming.issued partial_ratio).
Local Abbreviation all_issued := (Upcoming.all_issued partial_ratio).

(** C3.  The base flight number is one more than the greatest flight
    number of the launches that are not upcoming; an iteration that pushes
    an update gives it the flight number [base + manifest_index], the
    position of the row in the manifest; the updates of a run are numbered
    that way, payload by payload; with base 50 and three payloads whose
    updates come from the rows 0, 1 and 2, the flight numbers are 50, 51
    and 52, in that order. *)
Theorem flight_number_assignment :
  (∀ col,
     match base_flight_number col with
     | None => ∀ l, l ∈ col → Doc.upcoming l = true
     | Some base =>
         ∃ l, l ∈ col ∧ Doc.upcoming l = false
              ∧ base = Doc.flight_number l + 1
              ∧ ∀ l', l' ∈ col → Doc.upcoming l' = false →
                      Doc.flight_number l' ≤ Doc.flight_number l
     end)
  ∧ (∀ base sites dates pads payload pi mp mi d c st,
       partial_ratio payload mp = 100 → dates !! mi = Some d →
       classify d = Some c →
       ∃ st' t,
         iteration base sites dates pads payload pi mp mi st = Some st'
         ∧ promises st' = promises st ++ [mk_update payload t]
         ∧ flight_number t = base + Z.of_nat mi
         ∧ flight_numbers st' = flight_numbers st ++ [base + Z.of_nat mi])
  ∧ (∀ base payloads sites row,
       ∃ st, loops base payloads sites row = Some st
             ∧ summary <$> promises st = all_issued base row payloads
             ∧ flight_numbers st = (all_issued base row payloads).*2)
  ∧ (∀ sites row p0 p1 p2,
       issued row p0 = [0%nat] → issued row p1 = [1%nat] →
       issued row p2 = [2%nat] →
       ∃ st, loops 50 [p0; p1; p2] sites row = Some st
             ∧ summary <$> promises st = [(p0, 50); (p1, 51); (p2, 52)]
             ∧ flight_numbers st = [50; 51; 52]).
Proof.
  split; [exact BaseFacts.base_flight_number_spec|]. split; [|split].
  - intros base sites dates pads payload pi mp mi d c st Hs Hd Hc.
    destruct (iteration_pushes partial_ratio moment moment_parse moment_tz
                moment_format moment_year moment_unix moment_toISOString
                base sites dates pads payload pi mp mi d c st Hs Hd Hc)
      as (st' & t & E & Hp & Hf & Hn & _).
    by exists st', t.
  - intros base payloads sites row. apply loops_spec.
  - intros sites row p0 p1 p2 H0 H1 H2.
    destruct (loops_spec partial_ratio moment moment_parse moment_tz
                moment_format moment_year moment_unix moment_toISOString
                50 [p0; p1; p2] sites row) as (st & E & Hp & Hf).
    exists st. split; [done|]. rewrite Hf, Hp.
    unfold Upcoming.all_issued. cbn [flat_map]. rewrite H0, H1, H2. done.
Qed.

(** C1, what the script does.  When two of the pushed flight numbers are
    equal the run logs the duplicate and exits with code 1, without
    waiting for the updates and without the report.  But the calls of
    [col.updateOne] were made inside the loops, one for every flight
    number pushed: at least two updates were already issued. *)
Theorem duplicate_flight_numbers_exit col manifest base st :
  base_flight_number col = Some base →
  loops base (Doc.payload_id <$> find_upcoming col)
    (Doc.site_id <$> find_upcoming col) (manifest_row manifest) = Some st →
  ¬ NoDup (flight_numbers st) →
  run col manifest
  = Exited 1 (console_log (Log_text "Duplicate flight numbers found") st)
  ∧ length (promises st) = length (flight_numbers st)
  ∧ (2 ≤ length (promises st))%nat.
Proof.
  intros Hb Hl Hd. unfold Upcoming.run. rewrite Hb, Hl.
  rewrite (proj2 (DuplicateFacts.has_duplicates_spec _) Hd).
  split; [done|].
  pose proof (loops_lengths _ _ _ _ _ _ _ _ _ _ _ _ _ Hl) as Hlen.
  split; [done|]. rewrite Hlen. by apply DuplicateFacts.not_NoDup_length.
Qed.

(** When all the pushed flight numbers differ the run completes, with one
    line of report for every update. *)
Lemma distinct_flight_numbers_complete col manifest base st :
  base_flight_number col = Some base →
  loops base (Doc.payload_id <$> find_upcoming col)
    (Doc.site_id <$> find_upcoming col) (manifest_row manifest) = Some st →
  NoDup (flight_numbers st) →
  run col manifest
  = Completed st (report (Doc.payload_id <$> find_upcoming col) (promises st)).
Proof.
  intros Hb Hl Hd. unfold Upcoming.run. rewrite Hb, Hl.
  destruct (has_duplicates (flight_numbers st)) eqn:E; [|done].
  by apply DuplicateFacts.has_duplicates_spec in E.
Qed.

Lemma numbered_payloads base payload rows :
  (numbered base payload rows).*1 = replicate (length rows) payload.
Proof.
  unfold numbered. induction rows as [|r rows IH]; simpl; [done|].
  f_equal. exact IH.
Qed.

Lemma all_issued_payloads base row payloads :
  (all_issued base row payloads).*1
  = repeats (λ p, length (issued row p)) payloads.
Proof.
  unfold Upcoming.all_issued, repeats.
  induction payloads as [|p payloads IH]; simpl; [done|].
  by rewrite fmap_app, numbered_payloads, IH.
Qed.

Lemma labelled_right_prefix payloads (output : list update) :
  labelled_right payloads output
  ↔ (filter_payload_id <$> output) `prefix_of` payloads.
Proof.
  rewrite RepeatFacts.prefix_of_lookups. unfold labelled_right. split.
  - intros H i x. rewrite list_lookup_fmap.
    destruct (output !! i) as [u|] eqn:E; [|done]. simpl. intros [= <-]. eauto.
  - intros H i u Hu. apply H. by rewrite list_lookup_fmap, Hu.
Qed.


End RunFacts.

(** ** The theorems at sample inputs *)


Lemma unmatched_date_skipped_witness :
  Sample.step 50 [None] ["NET November"%string] ["SLC-40"%string]
    "A" 0 "A sat" 0 initial
  = Some (console_log (Log_text not_found_message) initial).
Proof.
  unfold Sample.step.
  apply (unmatched_date_skipped Sample.ratio Sample.moment Sample.parse
           Sample.tz Sample.format Sample.year_of Sample.unix
           Sample.toISOString 50 [None] ["NET November"%string]
           ["SLC-40"%string] "A" 0%nat "A sat" 0%nat "NET November" initial []).
  - reflexivity.
  - reflexivity.
  - intros b. destruct b; reflexivity.
Defined.

Lemma local_time_zone_witness :
  ∃ st' t,
    Sample.step 50 [Some "vafb_slc_4e"%string]
      ["2020 Nov 4 [14:10]"%string] ["SLC-40"%string] "A" 0 "A sat" 0 initial
    = Some st'
    ∧ promises st' = [mk_update "A" t]
    ∧ launch_date_local t
      = "2020 Nov 4 14:10 +0000 America/Los_Angeles"%string
    ∧ launch_site_site_id t = Some "ccafs_slc_40"%string.
Proof.
  unfold Sample.step.
  apply (proj1 (local_time_zone Sample.ratio Sample.moment Sample.parse
           Sample.tz Sample.format Sample.year_of Sample.unix
           Sample.toISOString 50 [Some "vafb_slc_4e"%string]
           ["2020 Nov 4 [14:10]"%string] ["SLC-40"%string] "A" 0%nat "A sat"
           0%nat "2020 Nov 4 [14:10]"
           (mk_classified "2020 Nov 4 [14:10]" "hour" false false) initial
           eq_refl eq_refl eq_refl)).
Defined.

Lemma unknown_launchpad_null_site_witness :
  ∃ st' t,
    Sample.step 50 [None] ["2020 Nov"%string] ["unknown-pad"%string]
      "A" 0 "A sat" 0 initial = Some st'
    ∧ promises st' = [mk_update "A" t]
    ∧ launch_site_site_id t = None
    ∧ launch_site_site_name t = None
    ∧ launch_site_site_name_long t = None.
Proof.
  unfold Sample.step.
  apply (unknown_launchpad_null_site Sample.ratio Sample.moment Sample.parse
           Sample.tz Sample.format Sample.year_of Sample.unix
           Sample.toISOString 50 [None] ["2020 Nov"%string]
           ["unknown-pad"%string] "A" 0%nat "A sat" 0%nat "2020 Nov"
           (mk_classified "2020 Nov" "month" true true) initial
           eq_refl eq_refl eq_refl).
  vm_compute. intros H. repeat (apply elem_of_cons in H as [H|H]; [discriminate H|]).
  by apply elem_of_nil in H.
Defined.

Lemma flight_number_assignment_witness :
  ∃ st, Sample.nested 50 ["A"; "B"; "C"]%string [None; None; None]
          Sample.three_rows = Some st
        ∧ summary <$> promises st = [("A", 50); ("B", 51); ("C", 52)]%string
        ∧ flight_numbers st = [50; 51; 52].
Proof.
  unfold Sample.nested.
  apply (proj2 (proj2 (proj2
           (flight_number_assignment Sample.ratio Sample.moment Sample.parse
              Sample.tz Sample.format Sample.year_of Sample.unix
              Sample.toISOString)))); vm_compute; reflexivity.
Defined.

Lemma duplicate_flight_numbers_exit_witness :
  ∃ st, Sample.script Sample.rideshare_col Sample.rideshare_manifest = Exited 1 st
        ∧ flight_numbers st = [50; 50]
        ∧ filter_payload_id <$> promises st = ["Iridium NEXT 6"; "GRACE-FO"]%string.
Proof.
  destruct (Sample.nested 50 ["Iridium NEXT 6"; "GRACE-FO"]%string
              [Some "vafb_slc_4e"; Some "vafb_slc_4e"]%string
              (manifest_row Sample.rideshare_manifest)) as [st|] eqn:E;
    [|vm_compute in E; discriminate E].
  assert (flight_numbers st = [50; 50]
          ∧ filter_payload_id <$> promises st
            = ["Iridium NEXT 6"; "GRACE-FO"]%string) as [Hf Hp].
  { vm_compute in E. injection E as <-. split; reflexivity. }
  exists (console_log (Log_text "Duplicate flight numbers found") st).
  split; [|split; [exact Hf | exact Hp]].
  unfold Sample.script.
  apply (duplicate_flight_numbers_exit Sample.ratio Sample.moment Sample.parse
           Sample.tz Sample.format Sample.year_of Sample.unix Sample.toISOString
           Sample.modified Sample.rideshare_col Sample.rideshare_manifest 50 st).
  - vm_compute. reflexivity.
  - exact E.
  - rewrite Hf. intros [Hn _]%NoDup_cons. apply Hn, list_elem_of_here.
Defined.



(** * Further properties of the script *)

(** ** Outcomes of a run *)

Section OutcomeFacts.

Context (partial_ratio : string → string → Z) (moment : Type)
  (moment_parse : string → list string → moment)
  (moment_tz : moment → string → moment)
  (moment_format : moment → string)
  (moment_year moment_unix : moment → Z)
  (moment_toISOString : moment → string)
  (nModified : nat → update → Z).

Local Abbreviation loops :=
  (Upcoming.loops partial_ratio moment moment_parse moment_tz moment_format
     moment_year moment_unix moment_toISOString).
Local Abbreviation run :=
  (Upcoming.run partial_ratio moment moment_parse moment_tz moment_format
     moment_year moment_unix moment_toISOString nModified).
Local Abbreviation report := (Upcoming.report nModified).
Local Abbreviation issues := (Upcoming.issues partial_ratio).
Local Abbreviation issued_from := (Upcoming.issued_from partial_ratio).
Local Abbreviation issued := (Upcoming.issued partial_ratio).
Local Abbreviation all_issued := (Upcoming.all_issued partial_ratio).


Lemma run_cases col manifest l :
  l ∈ col → Doc.upcoming l = false →
  ∃ base st,
    base_flight_number col = Some base
    ∧ loops base (Doc.payload_id <$> find_upcoming col)
        (Doc.site_id <$> find_upcoming col) (manifest_row manifest) = Some st
    ∧ length (promises st) = length (flight_numbers st)
    ∧ ((¬ NoDup (flight_numbers st)
        ∧ run col manifest
          = Exited 1 (console_log (Log_text "Duplicate flight numbers found") st))
       ∨ (NoDup (flight_numbers st)
          ∧ ∃ lines, run col manifest = Completed st lines
                     ∧ length lines = length (promises st))).
Proof.
  intros Hin Hup.
  pose proof (BaseFacts.base_flight_number_spec col) as Hb.
  destruct (base_flight_number col) as [base|] eqn:Eb.
  2:{ rewrite (Hb l Hin) in Hup. discriminate. }
  destruct (loops_spec partial_ratio moment moment_parse moment_tz
              moment_format moment_year moment_unix moment_toISOString base
              (Doc.payload_id <$> find_upcoming col)
              (Doc.site_id <$> find_upcoming col) (manifest_row manifest))
    as (st & E & _).
  exists base, st. split; [done|]. split; [done|].
  split; [by eapply loops_lengths|].
  destruct (decide (NoDup (flight_numbers st))) as [Hnd|Hnd].
  - right. split; [done|]. eexists. split.
    + by apply distinct_flight_numbers_complete with (base := base).
    + unfold Upcoming.report. by rewrite length_imap.
  - left. split; [done|].
    unfold Upcoming.run. rewrite Eb, E.
    by rewrite (proj2 (DuplicateFacts.has_duplicates_spec _) Hnd).
Qed.


Lemma issued_from_bounds dates payload labels i mi :
  mi ∈ issued_from dates payload labels i →
  (i ≤ mi < i + length labels)%nat.
Proof.
  revert i. induction labels as [|label labels IH]; intros i; simpl.
  - by intros ?%elem_of_nil.
  - destruct (issues dates payload label i).
    + intros [->|H]%elem_of_cons; [lia|]. apply IH in H. lia.
    + intros H. apply IH in H. lia.
Qed.

Lemma issued_from_NoDup dates payload labels i :
  NoDup (issued_from dates payload labels i).
Proof.
  revert i. induction labels as [|label labels IH]; intros i; simpl.
  - constructor.
  - destruct (issues dates payload label i); [|done].
    apply NoDup_cons. split; [|done].
    intros H%issued_from_bounds. lia.
Qed.

Lemma all_issued_elem base row payloads p n :
  (p, n) ∈ all_issued base row payloads
  ↔ p ∈ payloads ∧ ∃ mi, mi ∈ issued row p ∧ n = base + Z.of_nat mi.
Proof.
  unfold Upcoming.all_issued. induction payloads as [|q payloads IH]; simpl.
  - split; [by intros ?%elem_of_nil | by intros [?%elem_of_nil _]].
  - rewrite elem_of_app, IH, elem_of_cons. unfold numbered at 1.
    rewrite list_elem_of_fmap. split.
    + intros [(mi & [= -> ->] & Hmi)|[Hp Hmi]]; eauto.
    + intros [[->|Hp] (mi & Hmi & ->)]; eauto.
Qed.

(** X3.  Every flight number a run assigns is greater than the flight
    number of every launch that is not upcoming, and smaller than the
    base plus the number of payloads of the manifest: the upcoming
    launches are numbered after all the past ones. *)
Theorem flight_numbers_after_past col manifest base st n :
  base_flight_number col = Some base →
  loops base (Doc.payload_id <$> find_upcoming col)
    (Doc.site_id <$> find_upcoming col) (manifest_row manifest) = Some st →
  n ∈ flight_numbers st →
  (∀ l, l ∈ col → Doc.upcoming l = false → Doc.flight_number l < n)
  ∧ n < base + Z.of_nat (length (manifest_payloads (manifest_row manifest))).
Proof.
  intros Hb Hl Hn.
  destruct (loops_spec partial_ratio moment moment_parse moment_tz
              moment_format moment_year moment_unix moment_toISOString base
              (Doc.payload_id <$> find_upcoming col)
              (Doc.site_id <$> find_upcoming col) (manifest_row manifest))
    as (st' & E & _ & Hf).
  rewrite Hl in E. injection E as <-. rewrite Hf in Hn.
  apply list_elem_of_fmap in Hn as ([p n'] & -> & Hin). simpl.
  apply all_issued_elem in Hin as (_ & mi & Hmi & ->).
  apply issued_from_bounds in Hmi.
  pose proof (BaseFacts.base_flight_number_spec col) as Hs. rewrite Hb in Hs.
  destruct Hs as (l0 & _ & _ & -> & Hmax). split; [|lia].
  intros l Hin Hup. specialize (Hmax l Hin Hup). lia.
Qed.

End OutcomeFacts.

(** ** The updates of the two loops *)

Module ListFacts.

Lemma elem_of_flat_map {A B : Type} (f : A → list B) (l : list A) (z : B) :
  z ∈ flat_map f l ↔ ∃ x, x ∈ l ∧ z ∈ f x.
Proof.
  rewrite list_elem_of_In, in_flat_map. split.
  - intros (x & Hx & Hz). exists x. by rewrite !list_elem_of_In.
  - intros (x & Hx & Hz). exists x. by rewrite <- !list_elem_of_In.
Qed.

Lemma fmap_flat_map {A B C : Type} (g : B → C) (f : A → list B) (l : list A) :
  g <$> flat_map f l = flat_map (λ x, g <$> f x) l.
Proof.
  induction l as [|x l IH]; simpl; [done|]. by rewrite fmap_app, IH.
Qed.

(** A concatenation has no duplicate exactly when no piece has one and no
    element is in the pieces of two positions. *)
Lemma NoDup_flat_map {A B : Type} (f : A → list B) (l : list A) :
  NoDup (flat_map f l)
  ↔ (∀ x, x ∈ l → NoDup (f x))
    ∧ (∀ i j x y z, l !! i = Some x → l !! j = Some y →
                    z ∈ f x → z ∈ f y → i = j).
Proof.
  induction l as [|a l IH]; simpl.
  - split; [|intros _; constructor]. intros _. split.
    + by intros x ?%elem_of_nil.
    + by intros i j x y z ?.
  - rewrite NoDup_app, IH. split.
    + intros (Ha & Hdis & Hall & Hpair). split.
      * intros x [->|Hx]%elem_of_cons; auto.
      * intros [|i] [|j] x y z Hx Hy Hzx Hzy; simpl in *.
        -- done.
        -- injection Hx as <-. exfalso. apply (Hdis z Hzx).
           apply elem_of_flat_map. exists y. split; [|done].
           by eapply list_elem_of_lookup_2.
        -- injection Hy as <-. exfalso. apply (Hdis z Hzy).
           apply elem_of_flat_map. exists x. split; [|done].
           by eapply list_elem_of_lookup_2.
        -- f_equal. by eapply Hpair.
    + intros (Hall & Hpair). split; [|split; [|split]].
      * apply Hall, list_elem_of_here.
      * intros z Hza (y & [j Hj]%list_elem_of_lookup_1 & Hzy)%elem_of_flat_map.
        by specialize (Hpair 0%nat (S j) a y z eq_refl Hj Hza Hzy).
      * intros x Hx. by apply Hall, list_elem_of_further.
      * intros i j x y z Hx Hy Hzx Hzy.
        by specialize (Hpair (S i) (S j) x y z Hx Hy Hzx Hzy) as [= ->].
Qed.

End ListFacts.

Section UpdateFacts.

Context (partial_ratio : string → string → Z) (moment : Type)
  (moment_parse : string → list string → moment)
  (moment_tz : moment → string → moment)
  (moment_format : moment → string)
  (moment_year moment_unix : moment → Z)
  (moment_toISOString : moment → string)
  (nModified : nat → update → Z).

Local Abbreviation iteration :=
  (Upcoming.iteration partial_ratio moment moment_parse moment_tz moment_format
     moment_year moment_unix moment_toISOString).
Local Abbreviation loops :=
  (Upcoming.loops partial_ratio moment moment_parse moment_tz moment_format
     moment_year moment_unix moment_toISOString).
Local Abbreviation run :=
  (Upcoming.run partial_ratio moment moment_parse moment_tz moment_format
     moment_year moment_unix moment_toISOString nModified).
Local Abbreviation issues := (Upcoming.issues partial_ratio).
Local Abbreviation issued_from := (Upcoming.issued_from partial_ratio).
Local Abbreviation issued := (Upcoming.issued partial_ratio).
Local Abbreviation all_issued := (Upcoming.all_issued partial_ratio).
Local Abbreviation pushes_at := (Alone.pushes_at partial_ratio).
Local Abbreviation update_of :=
  (Alone.update_of moment moment_parse moment_tz moment_format
     moment_year moment_unix moment_toISOString).
Local Abbreviation updates_of :=
  (Alone.updates_of moment moment_parse moment_tz moment_format
     moment_year moment_unix moment_toISOString).
Local Abbreviation all_updates_from :=
  (Alone.all_updates_from partial_ratio moment moment_parse moment_tz
     moment_format moment_year moment_unix moment_toISOString).

Lemma issued_from_elem dates payload labels i mi :
  mi ∈ issued_from dates payload labels i
  ↔ ∃ label date,
      (i ≤ mi)%nat ∧ labels !! (mi - i)%nat = Some label
      ∧ partial_ratio payload label = 100
      ∧ dates !! mi = Some date ∧ is_Some (classify date).
Proof.
  revert i. induction labels as [|label labels IH]; intros i; simpl.
  - split; [by intros ?%elem_of_nil|]. by intros (? & ? & _ & ? & _).
  - assert (issues dates payload label i = true
            ↔ ∃ date, partial_ratio payload label = 100
                      ∧ dates !! i = Some date ∧ is_Some (classify date)) as Hi.
    { unfold Upcoming.issues. rewrite andb_true_iff, Z.eqb_eq.
      destruct (dates !! i) as [d|].
      - rewrite bool_decide_eq_true. split.
        + intros [? ?]. eauto.
        + by intros (? & ? & [= <-] & ?).
      - split; [by intros [_ ?] | by intros (? & _ & ? & _)]. }
    assert (mi ∈ issued_from dates payload labels (S i)
            ↔ ∃ label' date, (i < mi)%nat
                ∧ (label :: labels) !! (mi - i)%nat = Some label'
                ∧ partial_ratio payload label' = 100
                ∧ dates !! mi = Some date ∧ is_Some (classify date)) as Hrest.
    { rewrite IH. split.
      - intros (l' & d & Hle & Hl & ?). exists l', d. split; [lia|].
        replace (mi - i)%nat with (S (mi - S i)) by lia. done.
      - intros (l' & d & Hlt & Hl & ?). exists l', d. split; [lia|].
        replace (mi - i)%nat with (S (mi - S i)) in Hl by lia. done. }
    destruct (issues dates payload label i) eqn:E.
    + rewrite elem_of_cons, Hrest. split.
      * intros [->|(l' & d & Hlt & ?)].
        -- destruct (proj1 Hi eq_refl) as (d & ? & ? & ?).
           exists label, d. rewrite Nat.sub_diag. by repeat split.
        -- exists l', d. split; [lia | done].
      * intros (l' & d & Hle & Hl & ?).
        destruct (decide (mi = i)) as [->|Hne]; [by left|].
        right. exists l', d. split; [lia | done].
    + rewrite Hrest. split.
      * intros (l' & d & Hlt & ?). exists l', d. split; [lia | done].
      * intros (l' & d & Hle & Hl & Hs & Hd & Hc).
        destruct (decide (mi = i)) as [->|Hne].
        -- rewrite Nat.sub_diag in Hl. injection Hl as <-.
           assert (false = true) as E' by (apply Hi; eauto).
           discriminate E'.
        -- exists l', d. split; [lia | done].
Qed.

Lemma issued_elem row payload mi :
  mi ∈ issued row payload ↔ pushes_at row payload mi.
Proof.
  unfold Upcoming.issued, Alone.pushes_at. rewrite issued_from_elem.
  rewrite Nat.sub_0_r. split.
  - intros (l & d & _ & ?). by exists l, d.
  - intros (l & d & ?). exists l, d. split; [lia | done].
Qed.


(** One iteration pushes the update of its payload and its row alone. *)
Lemma iteration_update base sites dates pads payload pi mp mi st :
  is_Some (dates !! mi) →
  ∃ st', iteration base sites dates pads payload pi mp mi st = Some st'
    ∧ promises st'
      = promises st
        ++ updates_of base sites dates pads payload pi
             (if issues dates payload mp mi then [mi] else []).
Proof.
  intros [d Hd]. unfold Upcoming.iteration, Upcoming.issues. rewrite Hd.
  destruct (partial_ratio payload mp =? 100); simpl.
  - destruct (classify d) as [c|] eqn:Ec.
    + eexists. split; [reflexivity|].
      rewrite bool_decide_eq_true_2 by eauto.
      unfold Alone.updates_of, Alone.update_of. simpl. rewrite Hd, Ec. simpl.
      unfold Upcoming.calculated_times. simpl. by rewrite lookup_insert_eq.
    + eexists. split; [reflexivity|].
      rewrite bool_decide_eq_false_2 by (by intros [? ?]).
      simpl. by rewrite app_nil_r.
  - eexists. split; [reflexivity|]. by rewrite app_nil_r.
Qed.

Lemma inner_loop_updates base sites dates pads payload pi labels i st :
  (i + length labels ≤ length dates)%nat →
  ∃ st', forEach_from (iteration base sites dates pads payload pi) labels i st
         = Some st'
    ∧ promises st'
      = promises st
        ++ updates_of base sites dates pads payload pi
             (issued_from dates payload labels i).
Proof.
  revert i st. induction labels as [|mp labels IH]; intros i st Hlen.
  - exists st. simpl. by rewrite app_nil_r.
  - simpl in Hlen.
    destruct (iteration_update base sites dates pads payload pi mp i st)
      as (st1 & E1 & Hp1).
    { apply lookup_lt_is_Some. lia. }
    destruct (IH (S i) st1) as (st2 & E2 & Hp2); [lia|].
    exists st2. cbn [forEach_from Upcoming.issued_from]. rewrite E1.
    split; [done|]. rewrite Hp2, Hp1. unfold Alone.updates_of.
    destruct (issues dates payload mp i); simpl.
    + destruct (Alone.update_of _ _ _ _ _ _ _ _ _ _ _ _ _ _); simpl;
        by rewrite <- ?app_assoc, ?app_nil_r.
    + by rewrite app_nil_r.
Qed.

Lemma outer_loop_updates base sites row payloads pi st :
  ∃ st', forEach_from
           (λ payload payload_index,
              forEach
                (iteration base sites (manifest_dates row)
                   (manifest_launchpads row) payload payload_index)
                (manifest_payloads row))
           payloads pi st = Some st'
    ∧ promises st' = promises st ++ all_updates_from base sites row payloads pi.
Proof.
  revert pi st. induction payloads as [|p payloads IH]; intros pi st.
  - exists st. simpl. by rewrite app_nil_r.
  - destruct (inner_loop_updates base sites (manifest_dates row)
                (manifest_launchpads row) p pi (manifest_payloads row) 0 st)
      as (st1 & E1 & Hp1).
    { pose proof (ManifestFacts.manifest_dates_cover row). lia. }
    destruct (IH (S pi) st1) as (st2 & E2 & Hp2).
    exists st2. cbn [forEach_from]. unfold forEach at 1. rewrite E1.
    split; [done|]. rewrite Hp2, Hp1. cbn [Alone.all_updates_from].
    by rewrite <- app_assoc.
Qed.

Lemma all_updates_from_elem base sites row payloads pi u :
  u ∈ all_updates_from base sites row payloads pi →
  ∃ i p mi,
    payloads !! i = Some p ∧ pushes_at row p mi
    ∧ update_of base sites (manifest_dates row) (manifest_launchpads row)
        p (pi + i) mi = Some u.
Proof.
  revert pi. induction payloads as [|p payloads IH]; intros pi; simpl.
  - by intros ?%elem_of_nil.
  - rewrite elem_of_app. intros [H|H].
    + unfold Alone.updates_of in H.
      apply list_elem_of_omap in H as (mi & Hmi & Hu).
      exists 0%nat, p, mi. rewrite Nat.add_0_r. split; [done|].
      split; [by apply issued_elem | done].
    + apply IH in H as (i & q & mi & Hq & Hm & Hu).
      exists (S i), q, mi. split; [done|]. split; [done|].
      by replace (pi + S i)%nat with (S pi + i)%nat by lia.
Qed.

Lemma loops_updates base payloads sites row :
  ∃ st, loops base payloads sites row = Some st
    ∧ promises st = all_updates_from base sites row payloads 0
    ∧ ∀ u, u ∈ promises st →
        ∃ i p mi,
          payloads !! i = Some p ∧ pushes_at row p mi
          ∧ update_of base sites (manifest_dates row) (manifest_launchpads row)
              p i mi = Some u.
Proof.
  destruct (outer_loop_updates base sites row payloads 0 initial)
    as (st & E & Hp).
  exists st. split; [done|]. split; [done|].
  intros u Hu. rewrite Hp in Hu. simpl in Hu.
  by apply all_updates_from_elem in Hu.
Qed.


End UpdateFacts.

(** ** The cells of the manifest *)

Module SliceFacts.
Import Upcoming.

Lemma phase_of (q t : nat) : (t < 8 → (8 * q + t) mod 8 = t)%nat.
Proof. intros Ht. symmetry. by apply (Nat.mod_unique _ 8 q t). Qed.

Lemma filter_index_from_ext {A : Type} (p q : nat → bool) (l : list A) (i : nat) :
  (∀ j, p j = q j) → filter_index_from p l i = filter_index_from q l i.
Proof.
  intros H. revert i. induction l as [|x l IH]; intros i; simpl; [done|].
  by rewrite H, IH.
Qed.

(** Cells at which the test fails are skipped. *)
Lemma filter_index_from_skip {A : Type} (p : nat → bool) (n : nat) (l : list A)
    (i : nat) :
  (∀ t, (t < n)%nat → p (i + t)%nat = false) →
  filter_index_from p l i = filter_index_from p (drop n l) (i + n).
Proof.
  revert l i. induction n as [|n IH]; intros l i H.
  - by rewrite drop_0, Nat.add_0_r.
  - destruct l as [|x l]; [done|]. simpl.
    pose proof (H 0%nat ltac:(lia)) as H0. rewrite Nat.add_0_r in H0.
    rewrite H0, (IH l (S i)).
    + by replace (S i + n)%nat with (i + S n)%nat by lia.
    + intros t Ht. replace (S i + t)%nat with (i + S t)%nat by lia.
      apply H. lia.
Qed.

(** One row of eight cells gives the cell of phase [r], if the row has
    it. *)
Lemma filter_index_from_chunk {A : Type} (r q : nat) (l : list A) :
  (r < 8)%nat →
  filter_index_from (λ index, (index mod 8 =? r)%nat) l (8 * q)
  = match l !! r with
    | Some x =>
        x :: filter_index_from (λ index, (index mod 8 =? r)%nat) (drop 8 l)
               (8 * S q)
    | None => []
    end.
Proof.
  intros Hr.
  rewrite (filter_index_from_skip _ r).
  2:{ intros t Ht. rewrite phase_of by lia. apply Nat.eqb_neq. lia. }
  destruct (l !! r) as [x|] eqn:E.
  - rewrite (drop_S _ _ _ E). cbn [filter_index_from].
    rewrite phase_of, Nat.eqb_refl by done.
    f_equal. rewrite (filter_index_from_skip _ (7 - r)).
    + rewrite drop_drop. f_equal; [f_equal|]; lia.
    + intros t Ht.
      replace (S (8 * q + r) + t)%nat with (8 * q + (S r + t))%nat by lia.
      rewrite phase_of by lia. apply Nat.eqb_neq. lia.
  - apply lookup_ge_None in E. by rewrite drop_ge by lia.
Qed.

Lemma filter_index_from_lookup {A : Type} (r q j : nat) (l : list A) :
  (r < 8)%nat →
  filter_index_from (λ index, (index mod 8 =? r)%nat) l (8 * q) !! j
  = l !! (8 * j + r)%nat.
Proof.
  intros Hr. revert q l. induction j as [|j IH]; intros q l;
    rewrite filter_index_from_chunk by done.
  - simpl. by destruct (l !! r).
  - destruct (l !! r) as [x|] eqn:E.
    + rewrite lookup_cons. rewrite IH, lookup_drop. f_equal. lia.
    + simpl. symmetry. apply lookup_ge_None.
      apply lookup_ge_None in E. lia.
Qed.

Lemma filter_index_lookup {A : Type} (r j : nat) (l : list A) :
  (r < 8)%nat →
  filter_index (λ index, (index mod 8 =? r)%nat) l !! j = l !! (8 * j + r)%nat.
Proof. intros Hr. exact (filter_index_from_lookup r 0 j l Hr). Qed.

Lemma plus_3_phase (i : nat) : ((i + 3) mod 8 =? 0)%nat = (i mod 8 =? 5)%nat.
Proof.
  rewrite <- Nat.Div0.add_mod_idemp_l.
  pose proof (Nat.mod_upper_bound i 8 ltac:(lia)) as Hlt.
  destruct (i mod 8)%nat as [|[|[|[|[|[|[|[|r]]]]]]]]; try lia; reflexivity.
Qed.

Lemma plus_6_phase (i : nat) : ((i + 6) mod 8 =? 0)%nat = (i mod 8 =? 2)%nat.
Proof.
  rewrite <- Nat.Div0.add_mod_idemp_l.
  pose proof (Nat.mod_upper_bound i 8 ltac:(lia)) as Hlt.
  destruct (i mod 8)%nat as [|[|[|[|[|[|[|[|r]]]]]]]]; try lia; reflexivity.
Qed.

Lemma slices_lookup (row : list string) (j : nat) :
  manifest_dates row !! j = row !! (8 * j)%nat
  ∧ manifest_launchpads row !! j = row !! (8 * j + 2)%nat
  ∧ manifest_payloads row !! j = row !! (8 * j + 5)%nat
  ∧ (is_Some (manifest_payloads row !! j) → is_Some (manifest_launchpads row !! j))
  ∧ (is_Some (manifest_launchpads row !! j) → is_Some (manifest_dates row !! j)).
Proof.
  assert (manifest_dates row !! j = row !! (8 * j)%nat) as Hd.
  { unfold manifest_dates.
    rewrite (filter_index_lookup 0 j row) by lia. f_equal. lia. }
  assert (manifest_launchpads row !! j = row !! (8 * j + 2)%nat) as Hl.
  { unfold manifest_launchpads, filter_index.
    rewrite (filter_index_from_ext _ (λ index, (index mod 8 =? 2)%nat))
      by apply plus_6_phase.
    exact (filter_index_lookup 2 j row ltac:(lia)). }
  assert (manifest_payloads row !! j = row !! (8 * j + 5)%nat) as Hp.
  { unfold manifest_payloads, filter_index.
    rewrite (filter_index_from_ext _ (λ index, (index mod 8 =? 5)%nat))
      by apply plus_3_phase.
    exact (filter_index_lookup 5 j row ltac:(lia)). }
  rewrite Hd, Hl, Hp. repeat split.
  - intros H%lookup_lt_is_Some. apply lookup_lt_is_Some. lia.
  - intros H%lookup_lt_is_Some. apply lookup_lt_is_Some. lia.
Qed.

(** X6.  The three arrays cut from the manifest are aligned by table row:
    the date, the launchpad and the payload at a position are the first,
    the third and the sixth of the eight cells of the row at that
    position.  So a position has a launchpad whenever it has a payload and
    a date whenever it has a launchpad. *)
Theorem manifest_slices (row : list string) (j : nat) :
  manifest_dates row !! j = row !! (8 * j)%nat
  ∧ manifest_launchpads row !! j = row !! (8 * j + 2)%nat
  ∧ manifest_payloads row !! j = row !! (8 * j + 5)%nat
  ∧ (is_Some (manifest_payloads row !! j) → is_Some (manifest_launchpads row !! j))
  ∧ (is_Some (manifest_launchpads row !! j) → is_Some (manifest_dates row !! j)).
Proof. exact (slices_lookup row j). Qed.

Lemma length_by_lookup {A : Type} (l : list A) (n : nat) :
  (∀ j, l !! j = None ↔ (n ≤ j)%nat) → length l = n.
Proof.
  intros H.
  destruct (decide (length l ≤ n)%nat) as [Hle|Hgt].
  - destruct (decide (length l = n)) as [|Hne]; [done|].
    assert (l !! length l = None) as E by (apply lookup_ge_None; lia).
    apply H in E. lia.
  - assert (l !! n = None) as E by (by apply H).
    apply lookup_ge_None in E. lia.
Qed.

(** X7.  A manifest table of [n] complete rows (eight cells each) gives
    [n] dates, [n] launchpads and [n] payloads. *)
Theorem complete_table_lengths (row : list string) (n : nat) :
  length row = (8 * n)%nat →
  length (manifest_dates row) = n
  ∧ length (manifest_launchpads row) = n
  ∧ length (manifest_payloads row) = n.
Proof.
  intros Hlen.
  repeat split; apply length_by_lookup; intros j;
    destruct (slices_lookup row j) as (Hd & Hl & Hp & _);
    rewrite ?Hd, ?Hl, ?Hp, lookup_ge_None; lia.
Qed.

Lemma split_list_no_sep (sep : ascii) (cur s : list ascii) :
  sep ∉ cur → Forall (λ piece, sep ∉ piece) (Str.split_list sep cur s).
Proof.
  revert cur. induction s as [|c s IH]; intros cur Hcur; simpl.
  - constructor; [|constructor]. by rewrite elem_of_reverse.
  - destruct (Ascii.eqb_spec c sep) as [->|Hne].
    + constructor; [by rewrite elem_of_reverse|].
      apply IH, not_elem_of_nil.
    + apply IH. rewrite not_elem_of_cons. split; [congruence | done].
Qed.

Lemma split_list_concat (sep : ascii) (cur s : list ascii) :
  concat (Str.split_list sep cur s)
  = reverse cur ++ filter (λ c, c ≠ sep) s.
Proof.
  revert cur. induction s as [|c s IH]; intros cur; simpl.
  - by rewrite filter_nil.
  - destruct (Ascii.eqb_spec c sep) as [->|Hne].
    + simpl. rewrite IH. simpl.
      by rewrite filter_cons_False by (intros H; by apply H).
    + rewrite IH, reverse_cons, <- app_assoc. simpl.
      by rewrite filter_cons_True by done.
Qed.

Lemma concat_nonempty (pieces : list string) :
  concat (list_ascii_of_string <$> filter (λ v, v ≠ ""%string) pieces)
  = concat (list_ascii_of_string <$> pieces).
Proof.
  induction pieces as [|p pieces IH]; [done|].
  destruct (decide (p = ""%string)) as [->|Hne].
  - rewrite filter_cons_False by (intros H; by apply H).
    rewrite fmap_cons. cbn [concat list_ascii_of_string app]. exact IH.
  - rewrite filter_cons_True by done. rewrite !fmap_cons. cbn [concat].
    by rewrite IH.
Qed.


End SliceFacts.

(** ** The fields of an update *)

Lemma classified_flags (s : string) (c : classified) :
  classify s = Some c →
  c_precision c ∈ ["quarter"; "half"; "year"; "month"; "day"; "hour"]%string
  ∧ (c_is_tentative c = false ↔ c_precision c = "hour"%string)
  ∧ (c_tbd c = false
     ↔ c_precision c = "day"%string ∨ c_precision c = "hour"%string).
Proof.
  unfold classify. destruct (select_branch s) as [b|]; [|done].
  intros [= <-].
  destruct b; simpl; (split; [rewrite !elem_of_cons; auto 10|]);
    split; split; try done; try (intros [?|?]; done); auto.
Qed.

Lemma launch_site_cases (pad : option string) :
  launch_site pad = mk_site None None None
  ∨ ∃ id name long,
      launch_site pad = mk_site (Some id) (Some name) (Some long)
      ∧ id ∈ ["ccafs_slc_40"; "ksc_lc_39a"; "vafb_slc_4e"; "stls"]%string.
Proof.
  unfold launch_site.
  repeat match goal with
         | |- context [if ?b then _ else _] => destruct b
         end;
    try (by left);
    right; do 3 eexists; (split; [reflexivity|]);
    rewrite !elem_of_cons; auto 10.
Qed.

Section FieldFacts.

Context (partial_ratio : string → string → Z) (moment : Type)
  (moment_parse : string → list string → moment)
  (moment_tz : moment → string → moment)
  (moment_format : moment → string)
  (moment_year moment_unix : moment → Z)
  (moment_toISOString : moment → string)
  (nModified : nat → update → Z).

Local Abbreviation loops :=
  (Upcoming.loops partial_ratio moment moment_parse moment_tz moment_format
     moment_year moment_unix moment_toISOString).
Local Abbreviation report := (Upcoming.report nModified).

(** X9.  In every update the loops push, the precision is one of the six
    tiers, [is_tentative] is false exactly for the precision [hour], and
    [tbd] is false exactly for the precisions [day] and [hour]: an update
    is never to be determined without being tentative. *)
Theorem update_flags base payloads sites row st u :
  loops base payloads sites row = Some st →
  u ∈ promises st →
  ∃ p, tentative_max_precision (set_fields u) = Some p
       ∧ p ∈ ["quarter"; "half"; "year"; "month"; "day"; "hour"]%string
       ∧ (is_tentative (set_fields u) = false ↔ p = "hour"%string)
       ∧ (tbd (set_fields u) = false ↔ p = "day"%string ∨ p = "hour"%string).
Proof.
  intros Hl Hu.
  destruct (loops_updates partial_ratio moment moment_parse moment_tz
              moment_format moment_year moment_unix moment_toISOString
              base payloads sites row) as (st' & E & _ & Hall).
  rewrite Hl in E. injection E as <-.
  destruct (Hall u Hu) as (i & p & mi & _ & _ & Hup).
  unfold Alone.update_of in Hup.
  destruct (manifest_dates row !! mi) as [d|]; [|done].
  destruct (classify d) as [c|] eqn:Ec; [|done].
  injection Hup as <-. simpl. exists (c_precision c). split; [done|].
  by apply classified_flags in Ec.
Qed.

(** X10.  In every update the loops push, the three fields of the launch
    site are either all null or all set, and then the identifier is one of
    [ccafs_slc_40], [ksc_lc_39a], [vafb_slc_4e] and [stls]; the update is
    addressed to one of the payloads of the list, and its flight number is
    the base plus the position of a manifest row. *)
Theorem update_site_and_number base payloads sites row st u :
  loops base payloads sites row = Some st →
  u ∈ promises st →
  filter_payload_id u ∈ payloads
  ∧ (∃ mi, (mi < length (manifest_payloads row))%nat
           ∧ flight_number (set_fields u) = base + Z.of_nat mi)
  ∧ ((launch_site_site_id (set_fields u) = None
      ∧ launch_site_site_name (set_fields u) = None
      ∧ launch_site_site_name_long (set_fields u) = None)
     ∨ ∃ id name long,
         launch_site_site_id (set_fields u) = Some id
         ∧ launch_site_site_name (set_fields u) = Some name
         ∧ launch_site_site_name_long (set_fields u) = Some long
         ∧ id ∈ ["ccafs_slc_40"; "ksc_lc_39a"; "vafb_slc_4e"; "stls"]%string).
Proof.
  intros Hl Hu.
  destruct (loops_updates partial_ratio moment moment_parse moment_tz
              moment_format moment_year moment_unix moment_toISOString
              base payloads sites row) as (st' & E & _ & Hall).
  rewrite Hl in E. injection E as <-.
  destruct (Hall u Hu) as (i & p & mi & Hp & Hpush & Hup).
  unfold Alone.update_of in Hup.
  destruct (manifest_dates row !! mi) as [d|]; [|done].
  destruct (classify d) as [c|] eqn:Ec; [|done].
  injection Hup as <-. simpl. split; [by eapply list_elem_of_lookup_2|]. split.
  - exists mi. split; [|done].
    destruct Hpush as (label & _ & Hlabel & _). by eapply lookup_lt_Some.
  - destruct (launch_site_cases (manifest_launchpads row !! mi))
      as [->|(id & name & long & -> & Hid)]; [by left|].
    right. by exists id, name, long.
Qed.

(** X11.  The report has one line for every update; a line whose position
    is beyond the payload list (more updates than payloads) is labelled
    [undefined]. *)
Theorem report_beyond_payloads payloads (output : list update) :
  length (report payloads output) = length output
  ∧ ∀ i u, output !! i = Some u → (length payloads ≤ i)%nat →
      report payloads output !! i
      = Some (Log_text (if negb (nModified i u =? 0)
                        then "undefined UPDATED" else "undefined")).
Proof.
  unfold Upcoming.report. split; [by rewrite length_imap|].
  intros i u Hu Hi. rewrite list_lookup_imap, Hu. simpl.
  unfold Upcoming.report_line. rewrite (lookup_ge_None_2 payloads i Hi).
  by destruct (negb (nModified i u =? 0)).
Qed.

End FieldFacts.

(** ** The matcher accepts the whole language of a pattern *)

Module CompleteFacts.
Import Chars Regex Patterns Classes Analysis Table.
Import CharFacts RegexFacts StrFacts PatternFacts CascadeFacts Upcoming.

Lemma rep_upto_complete (step : list ascii → cont → bool)
    (L : list ascii → Prop) :
  (∀ s1 s2 k, L s1 → k s2 = true → step (s1 ++ s2) k = true) →
  ∀ n ss rest k,
    (length ss ≤ n)%nat → Forall L ss → k rest = true →
    rep_upto step n (concat ss ++ rest) k = true.
Proof.
  intros Hstep. induction n as [|n IH]; intros ss rest k Hlen Hall Hk.
  - destruct ss; [done | simpl in Hlen; lia].
  - destruct Hall as [|s ss Hs Hall]; simpl.
    + rewrite Hk. apply orb_true_r.
    + rewrite <- app_assoc.
      rewrite (Hstep s (concat ss ++ rest)); [done..|].
      apply IH; [simpl in Hlen; lia | done..].
Qed.

Lemma rep_exact_complete (step : list ascii → cont → bool)
    (L : list ascii → Prop) :
  (∀ s1 s2 k, L s1 → k s2 = true → step (s1 ++ s2) k = true) →
  ∀ n ss rest k,
    length ss = n → Forall L ss → k rest = true →
    rep_exact step n (concat ss ++ rest) k = true.
Proof.
  intros Hstep. induction n as [|n IH]; intros ss rest k Hlen Hall Hk.
  - by destruct ss.
  - destruct Hall as [|s ss Hs Hall]; [done|]. simpl.
    rewrite <- app_assoc. apply Hstep; [done|].
    apply IH; [simpl in Hlen; lia | done..].
Qed.

Lemma exec_complete (r : regex) (s1 s2 : list ascii) (k : cont) :
  lang r s1 → k s2 = true → exec r (s1 ++ s2) k = true.
Proof.
  revert s1 s2 k.
  induction r as [|p|r1 IH1 r2 IH2|r1 IH1 r2 IH2|r IH lo hi]; intros s1 s2 k;
    cbn [lang exec].
  - by intros ->.
  - intros (c & -> & Hc) Hk. simpl. by rewrite Hc, Hk.
  - intros (t1 & t2 & -> & H1 & H2) Hk. rewrite <- app_assoc.
    apply IH1; [done|]. by apply IH2.
  - intros [H|H] Hk.
    + by rewrite IH1.
    + rewrite (IH2 _ _ _ H Hk). apply orb_true_r.
  - intros (ss & Hlen & -> & Hall) Hk.
    rewrite <- (take_drop lo ss) in Hall.
    apply Forall_app in Hall as [Ha Hb].
    rewrite <- (take_drop lo ss), concat_app, <- app_assoc.
    apply (rep_exact_complete (exec r) (lang r) IH).
    + rewrite length_take. lia.
    + done.
    + apply (rep_upto_complete (exec r) (lang r) IH); [|done..].
      rewrite length_drop. lia.
Qed.

(** The test of a pattern is membership in its language. *)
Lemma test_iff (r : regex) (s : string) :
  test r s = true ↔ lang r (list_ascii_of_string s).
Proof.
  split; [apply test_lang|]. intros H. unfold test.
  rewrite <- (app_nil_r (list_ascii_of_string s)). by apply exec_complete.
Qed.

Lemma lang_rep_class_intro (p : ascii → bool) (lo hi : nat) (s : list ascii) :
  (lo ≤ length s ≤ lo `max` hi)%nat → all p s → lang (Rep (Class p) lo hi) s.
Proof.
  intros Hlen Hall. exists ((λ c, [c]) <$> s). rewrite length_fmap.
  split; [done|]. split.
  - clear. induction s as [|c s IH]; simpl; [done | by f_equal].
  - apply Forall_fmap. eapply Forall_impl; [exact Hall|].
    intros c Hc. simpl. by exists c.
Qed.

(** X12.  In the group [([a-z]{3}|[a-z]{3,9})] of the patterns the first
    alternative adds nothing: in every context the group accepts what
    [[a-z]{3,9}] alone accepts. *)
Theorem month_group_redundant (s : list ascii) (k : cont) :
  exec month_name s k = exec (letters 3 9) s k.
Proof.
  unfold month_name.
  assert (exec (Alt (letters 3 3) (letters 3 9)) s k
          = exec (letters 3 3) s k || exec (letters 3 9) s k) as ->
    by reflexivity.
  destruct (exec (letters 3 3) s k) eqn:E; [|done].
  rewrite orb_true_l. symmetry.
  apply exec_sound in E as (s1 & s2 & -> & HL & Hk).
  apply exec_complete; [|done].
  apply lang_rep_class in HL as [Hlen Hall].
  apply lang_rep_class_intro; [simpl in *; lia | done].
Qed.

Lemma lang_sym (c : ascii) (t : list ascii) : lang (sym c) t ↔ t = [c].
Proof.
  simpl. unfold chr. split.
  - intros (c' & -> & H). by apply Ascii.eqb_eq in H as ->.
  - intros ->. exists c. by rewrite Ascii.eqb_refl.
Qed.

Lemma lang_digits (lo hi : nat) (t : list ascii) :
  (lo ≤ hi)%nat →
  lang (digits lo hi) t ↔ (lo ≤ length t ≤ hi)%nat ∧ all digit t.
Proof.
  intros Hle. split.
  - intros [Hlen Hall]%lang_rep_class. split; [lia | done].
  - intros [Hlen Hall]. apply lang_rep_class_intro; [lia | done].
Qed.

Lemma lang_month_name_iff (t : list ascii) :
  lang month_name t ↔ (3 ≤ length t ≤ 9)%nat ∧ all letter_i t.
Proof.
  split.
  - intros [H|H]; apply lang_rep_class in H as [Hlen Hall];
      (split; [simpl in Hlen; lia | done]).
  - intros [Hlen Hall]. right. apply lang_rep_class_intro; [simpl; lia | done].
Qed.

Lemma lang_ws (t : list ascii) : lang ws t ↔ ∃ w, t = [w] ∧ space w = true.
Proof. reflexivity. Qed.

(** The time of the [hour] pattern: two digits, a colon and two digits,
    between brackets or without any. *)
Lemma lang_clock (t : list ascii) :
  lang clock t
  ↔ ∃ h mi, length h = 2%nat ∧ all digit h ∧ length mi = 2%nat ∧ all digit mi
            ∧ (t = h ++ ":"%char :: mi
               ∨ t = "["%char :: h ++ ":"%char :: mi ++ ["]"%char]).
Proof.
  unfold clock. cbn [lang]. split.
  - intros [(b & r1 & -> & Hb%lang_sym & h & r2 & -> & Hh & c & r3 & ->
              & Hc%lang_sym & mi & e & -> & Hm & He%lang_sym)
           |(h & r1 & -> & Hh & c & mi & -> & Hc%lang_sym & Hm)]; subst;
      apply lang_digits in Hh as [? ?], Hm as [? ?]; try lia;
      exists h, mi; (repeat split; [lia | done | lia | done |]).
    + right. done.
    + left. done.
  - intros (h & mi & Hlh & Hh & Hlm & Hm & [->| ->]).
    + right. exists h, (":"%char :: mi). split; [done|].
      split; [apply lang_digits; [lia|]; split; [lia | done]|].
      exists [":"%char], mi. split; [done|]. split; [by apply lang_sym|].
      apply lang_digits; [lia|]. split; [lia | done].
    + left. exists ["["%char], (h ++ ":"%char :: mi ++ ["]"%char]).
      split; [done|]. split; [by apply lang_sym|].
      exists h, (":"%char :: mi ++ ["]"%char]). split; [done|].
      split; [apply lang_digits; [lia|]; split; [lia | done]|].
      exists [":"%char], (mi ++ ["]"%char]). split; [done|].
      split; [by apply lang_sym|].
      exists mi, ["]"%char]. split; [done|].
      split; [apply lang_digits; [lia|]; split; [lia | done]|].
      by apply lang_sym.
Qed.

(** X13.  The dates of the [hour] pattern are exactly: four digits, a
    white space, three to nine letters, a white space, one or two digits,
    a white space, and two digits, a colon and two digits, the last five
    between a pair of brackets or without any (a single bracket is not
    accepted; the values of the digits are not checked). *)
Theorem hour_shape (s : string) :
  test hour s = true
  ↔ ∃ y w1 m w2 d w3 h mi,
      length y = 4%nat ∧ all digit y ∧ space w1 = true
      ∧ (3 ≤ length m ≤ 9)%nat ∧ all letter_i m ∧ space w2 = true
      ∧ (1 ≤ length d ≤ 2)%nat ∧ all digit d ∧ space w3 = true
      ∧ length h = 2%nat ∧ all digit h ∧ length mi = 2%nat ∧ all digit mi
      ∧ (list_ascii_of_string s
         = y ++ w1 :: m ++ w2 :: d ++ w3 :: h ++ ":"%char :: mi
         ∨ list_ascii_of_string s
           = y ++ w1 :: m ++ w2 :: d ++ w3 :: "["%char :: h ++ ":"%char :: mi
               ++ ["]"%char]).
Proof.
  rewrite test_iff. set (l := list_ascii_of_string s). clearbody l.
  unfold hour. split.
  - intros (y & r1 & -> & Hy & x1 & r2 & -> & (w1 & -> & Hw1)
            & m & r3 & -> & Hm & x2 & r4 & -> & (w2 & -> & Hw2)
            & d & r5 & -> & Hd & x3 & t & -> & (w3 & -> & Hw3) & Ht).
    apply lang_digits in Hy as [? ?], Hd as [? ?]; try lia.
    apply lang_month_name_iff in Hm as [? ?].
    apply lang_clock in Ht as (h & mi & ? & ? & ? & ? & Ht).
    exists y, w1, m, w2, d, w3, h, mi.
    repeat (split; [done || lia|]).
    destruct Ht as [->| ->]; [left | right]; done.
  - intros (y & w1 & m & w2 & d & w3 & h & mi & Hy & Hya & Hw1 & Hm & Hma & Hw2
            & Hd & Hda & Hw3 & Hh & Hha & Hmi & Hmia & Hl).
    assert (l = y ++ ([w1] ++ (m ++ ([w2] ++ (d ++ ([w3] ++
                  (if decide (l = y ++ w1 :: m ++ w2 :: d ++ w3 :: h
                                   ++ ":"%char :: mi)
                   then h ++ ":"%char :: mi
                   else "["%char :: h ++ ":"%char :: mi ++ ["]"%char]))))))) as ->.
    { case_decide as E; [exact E|]. by destruct Hl. }
    exists y, ([w1] ++ (m ++ ([w2] ++ (d ++ ([w3] ++
                  (if decide (l = y ++ w1 :: m ++ w2 :: d ++ w3 :: h
                                   ++ ":"%char :: mi)
                   then h ++ ":"%char :: mi
                   else "["%char :: h ++ ":"%char :: mi ++ ["]"%char])))))).
    split; [done|]. split; [apply lang_digits; [lia|]; split; [lia | done]|].
    eexists [w1], _. split; [done|]. split; [by exists w1|].
    eexists m, _. split; [done|]. split; [by apply lang_month_name_iff|].
    eexists [w2], _. split; [done|]. split; [by exists w2|].
    eexists d, _. split; [done|].
    split; [apply lang_digits; [lia|]; split; [lia | done]|].
    eexists [w3], _. split; [done|]. split; [by exists w3|].
    apply lang_clock. exists h, mi. repeat (split; [done|]).
    case_decide; [by left | by right].
Qed.

(** X14.  Every date of the pattern [year_tbd] is also a date of the
    pattern [month] (its [TBD] is three letters); it gets the precision
    [year] because the test of [year_tbd] comes first in the cascade. *)
Theorem year_tbd_also_month (s : string) :
  test year_tbd s = true →
  test month s = true
  ∧ classify s = Some (mk_classified s "year" true true).
Proof.
  intros Ht. split.
  - apply test_iff. apply test_lang in Ht.
    destruct Ht as (y & r1 & -> & Hy & x1 & t & -> & Hw & Ht).
    exists y, (x1 ++ t). split; [done|]. split; [done|].
    exists x1, t. split; [done|]. split; [done|].
    apply lang_month_name_iff.
    pose proof (lang_word_i _ _ Ht) as Hlen%Forall2_length.
    apply lang_word_i_all in Ht. simpl in Hlen. split; [lia|].
    eapply all_weaken; [|exact Ht]. by vm_compute.
  - destruct (selected_when_no_Q R_year_tbd year_tbd s eq_refl) as (b & Hb & Hr & _);
      [done | done | done | by apply no_Q_year_tbd |].
    unfold classify. rewrite Hb. by destruct b.
Qed.

(** X15.  Two different patterns of the cascade share no date, but for
    the pairs [month_tbd] and [month_vague], and [year_tbd] and [month]:
    for a date without [Q], [H1] and [H2], the order of the tests matters
    only between these. *)
Theorem patterns_exclusive (r1 r2 : row) (p1 p2 : regex) (s : string) :
  row_pattern r1 = Some p1 → row_pattern r2 = Some p2 → r1 ≠ r2 →
  test p1 s = true → test p2 s = true →
  (r1 = R_month_tbd ∧ r2 = R_month_vague)
  ∨ (r1 = R_month_vague ∧ r2 = R_month_tbd)
  ∨ (r1 = R_year_tbd ∧ r2 = R_month)
  ∨ (r1 = R_month ∧ r2 = R_year_tbd).
Proof.
  intros E1 E2 Hne H1 H2.
  destruct (apart_table r1 r2 p1 p2 E1 E2 Hne) as [Ha|H]; [|done].
  rewrite (apart_spec p1 p2 s Ha H1) in H2. discriminate.
Qed.

End CompleteFacts.

(** ** The string given to the date parser *)

Module ParsedFacts.
Import Chars Regex Patterns Classes Analysis.
Import CharFacts RegexFacts Upcoming.

Lemma list_ascii_of_append (a b : string) :
  list_ascii_of_string (a +:+ b)
  = list_ascii_of_string a ++ list_ascii_of_string b.
Proof. induction a as [|c a IH]; simpl; [done | by rewrite IH]. Qed.

(** [replace] with a one character pattern and an empty replacement
    removes the first occurrence of the character. *)
Lemma remove_first_spec (c : ascii) (s : list ascii) :
  ((c ∉ s) ∧ Str.replace_list [c] [] s = s)
  ∨ ∃ a b, s = a ++ c :: b ∧ (c ∉ a) ∧ Str.replace_list [c] [] s = a ++ b.
Proof.
  induction s as [|x s IH].
  - left. split; [apply not_elem_of_nil | done].
  - cbn [Str.replace_list Str.starts_with].
    destruct (Ascii.eqb_spec x c) as [->|Hne]; simpl.
    + right. exists [], s. rewrite drop_0. split; [done|].
      split; [apply not_elem_of_nil | done].
    + destruct IH as [[Hn ->]|(a & b & -> & Hn & ->)].
      * left. split; [|done]. rewrite not_elem_of_cons. split; [congruence | done].
      * right. exists (x :: a), b. split; [done|]. split; [|done].
        rewrite not_elem_of_cons. split; [congruence | done].
Qed.

Lemma count_absent (c : ascii) (s : list ascii) :
  count (chr c) s = 0%nat ↔ c ∉ s.
Proof.
  induction s as [|x s IH]; simpl.
  - split; [intros _; apply not_elem_of_nil | done].
  - rewrite not_elem_of_cons, <- IH. unfold chr at 1.
    destruct (Ascii.eqb_spec x c) as [->|Hne]; split.
    + lia.
    + by intros [? _].
    + intros H. split; [congruence | lia].
    + intros [_ H]. lia.
Qed.

Lemma count_remove_first (q : ascii → bool) (c : ascii) (s : list ascii) :
  q c = false → count q (Str.replace_list [c] [] s) = count q s.
Proof.
  intros Hq. destruct (remove_first_spec c s) as [[_ ->]|(a & b & -> & _ & ->)];
    [done|]. rewrite !count_app. cbn [count]. by rewrite Hq.
Qed.

Lemma count_remove_first_same (c : ascii) (s : list ascii) :
  count (chr c) (Str.replace_list [c] [] s) = Nat.pred (count (chr c) s).
Proof.
  destruct (remove_first_spec c s) as [[Hn ->]|(a & b & -> & _ & ->)].
  - apply count_absent in Hn. by rewrite Hn.
  - assert (chr c c = true) as Hcc by apply Ascii.eqb_refl.
    rewrite !count_app. cbn [count]. rewrite Hcc. lia.
Qed.

(** The word removed by [strip_vague] is made of letters of [early],
    [mid] and [late]. *)
Lemma starts_with_i_split (w s : list ascii) :
  Str.starts_with_i w s = true →
  ∃ v, s = v ++ drop (length w) s ∧ all (one_of w) v.
Proof.
  revert s. induction w as [|a w IH]; intros s; simpl.
  - intros _. exists []. rewrite drop_0. split; [done | constructor].
  - destruct s as [|b s]; [done|].
    intros [Hb Hw]%andb_true_iff. destruct (IH s Hw) as (v & Hv & Hall).
    exists (b :: v). simpl. split; [by f_equal|].
    constructor.
    + unfold one_of. simpl. by rewrite Hb.
    + eapply Forall_impl; [exact Hall|]. intros c. unfold one_of. simpl.
      intros ->. apply orb_true_r.
Qed.

Lemma vague_prefix_split (s : list ascii) (n : nat) :
  Str.vague_prefix s = Some n →
  ∃ v, s = v ++ drop n s ∧ all vague_letter v.
Proof.
  unfold Str.vague_prefix.
  destruct (Str.starts_with_i (list_ascii_of_string "early") s) eqn:E1.
  { intros [= <-]. destruct (starts_with_i_split _ _ E1) as (v & Hv & Hall).
    exists v. split; [done|]. eapply all_weaken; [|exact Hall]. by vm_compute. }
  destruct (Str.starts_with_i (list_ascii_of_string "mid") s) eqn:E2.
  { intros [= <-]. destruct (starts_with_i_split _ _ E2) as (v & Hv & Hall).
    exists v. split; [done|]. eapply all_weaken; [|exact Hall]. by vm_compute. }
  destruct (Str.starts_with_i (list_ascii_of_string "late") s) eqn:E3; [|done].
  intros [= <-]. destruct (starts_with_i_split _ _ E3) as (v & Hv & Hall).
  exists v. split; [done|]. eapply all_weaken; [|exact Hall]. by vm_compute.
Qed.

Lemma count_none (q p : ascii → bool) (v : list ascii) :
  (∀ c, p c = true → q c = false) → all p v → count q v = 0%nat.
Proof.
  intros H Hall. induction Hall as [|c v Hc _ IH]; simpl; [done|].
  by rewrite (H c Hc), IH.
Qed.

Lemma count_strip_vague (q : ascii → bool) (s : list ascii) :
  (∀ c, vague_letter c = true → q c = false) →
  count q (Str.strip_vague_list s) = count q s.
Proof.
  intros Hq. induction s as [|x s IH].
  - simpl. by destruct (Str.vague_prefix []).
  - cbn [Str.strip_vague_list].
    destruct (Str.vague_prefix (x :: s)) as [n|] eqn:E.
    + destruct (vague_prefix_split _ _ E) as (v & Hv & Hall).
      rewrite Hv at 2. rewrite count_app, (count_none q vague_letter v); done.
    + simpl. by rewrite IH.
Qed.

Lemma parsed_date_list (d : string) :
  list_ascii_of_string (parsed_date d)
  = Str.replace_list ["]"%char] []
      (Str.replace_list ["["%char] []
         (Str.strip_vague_list (list_ascii_of_string d)))
    ++ list_ascii_of_string " +0000".
Proof.
  unfold parsed_date, Str.replace, Str.strip_vague.
  by rewrite list_ascii_of_append, !list_ascii_of_string_of_list_ascii.
Qed.

Lemma vague_letter_not (x c : ascii) :
  vague_letter x = false → vague_letter c = true → chr x c = false.
Proof.
  intros Hx Hc. unfold chr. destruct (Ascii.eqb_spec c x) as [->|]; [|done].
  congruence.
Qed.

Lemma parsed_date_counts (d : string) (x : ascii) :
  (x = "["%char ∨ x = "]"%char →
   count (chr x) (list_ascii_of_string (parsed_date d))
   = Nat.pred (count (chr x) (list_ascii_of_string d)))
  ∧ (x ≠ "["%char → x ≠ "]"%char → vague_letter x = false →
     count (chr x) (list_ascii_of_string (parsed_date d))
     = (count (chr x) (list_ascii_of_string d)
        + count (chr x) (list_ascii_of_string " +0000"))%nat).
Proof.
  rewrite parsed_date_list, count_app. split.
  - intros [->| ->].
    + rewrite count_remove_first by done.
      rewrite count_remove_first_same, count_strip_vague.
      * simpl. lia.
      * intros c. by apply vague_letter_not.
    + rewrite count_remove_first_same, count_remove_first by done.
      rewrite count_strip_vague.
      * simpl. lia.
      * intros c. by apply vague_letter_not.
  - intros H1 H2 Hv.
    rewrite !count_remove_first, count_strip_vague; [done|..].
    + intros c. by apply vague_letter_not.
    + unfold chr. by apply Ascii.eqb_neq.
    + unfold chr. by apply Ascii.eqb_neq.
Qed.


(** X17.  For a date of the [hour] pattern the string given to the date
    parser has no bracket left. *)
Theorem parsed_date_hour_no_bracket (d : string) :
  test hour d = true →
  ("["%char ∉ list_ascii_of_string (parsed_date d))
  ∧ ("]"%char ∉ list_ascii_of_string (parsed_date d)).
Proof.
  intros Ht%test_lang.
  pose proof (lang_bounds (chr "[") hour _ Ht) as [_ Hopen].
  pose proof (lang_bounds (chr "]") hour _ Ht) as [_ Hclose].
  assert ((bounds (chr "[") hour).2 = 1%nat) as E1 by (by vm_compute).
  assert ((bounds (chr "]") hour).2 = 1%nat) as E2 by (by vm_compute).
  rewrite E1 in Hopen. rewrite E2 in Hclose.
  split; apply count_absent.
  - rewrite (proj1 (parsed_date_counts d "[")) by (by left). lia.
  - rewrite (proj1 (parsed_date_counts d "]")) by (by right). lia.
Qed.

End ParsedFacts.

(** ** Which updates are pushed, the duplicate test, substrings *)

Section PushedFacts.

Context (partial_ratio : string → string → Z) (moment : Type)
  (moment_parse : string → list string → moment)
  (moment_tz : moment → string → moment)
  (moment_format : moment → string)
  (moment_year moment_unix : moment → Z)
  (moment_toISOString : moment → string).

Local Abbreviation loops :=
  (Upcoming.loops partial_ratio moment moment_parse moment_tz moment_format
     moment_year moment_unix moment_toISOString).
Local Abbreviation pushes_at := (Alone.pushes_at partial_ratio).

(** X18.  The loops push an update addressed to a payload with a given
    flight number exactly when the payload is in the payload list and the
    number is the base plus the position of a manifest row whose payload
    scores 100 against it and whose date is classified.  So a launch
    whose payload scores 100 against no row gets no update, and a row
    that matches no payload gives none. *)
Theorem update_pushed_iff base payloads sites row :
  ∃ st, loops base payloads sites row = Some st
    ∧ ∀ p n,
        (p, n) ∈ summary <$> promises st
        ↔ p ∈ payloads
          ∧ ∃ mi, pushes_at row p mi ∧ n = base + Z.of_nat mi.
Proof.
  destruct (loops_spec partial_ratio moment moment_parse moment_tz
              moment_format moment_year moment_unix moment_toISOString
              base payloads sites row) as (st & E & Hp & _).
  exists st. split; [done|]. intros p n. rewrite Hp, all_issued_elem.
  split.
  - intros [Hin (mi & Hmi & ->)]. split; [done|]. exists mi.
    split; [|done]. by apply issued_elem.
  - intros [Hin (mi & Hmi & ->)]. split; [done|]. exists mi.
    split; [|done]. by apply issued_elem.
Qed.

End PushedFacts.

Lemma set_add_spec (a acc : list Z) :
  NoDup acc →
  NoDup (foldl set_add acc a)
  ∧ ∀ x, x ∈ foldl set_add acc a ↔ x ∈ acc ∨ x ∈ a.
Proof.
  revert acc. induction a as [|y a IH]; intros acc Hnd; simpl.
  - split; [done|]. intros x. rewrite elem_of_nil. tauto.
  - unfold set_add at 2 4. case_bool_decide as Hy.
    + destruct (IH acc Hnd) as [H1 H2]. split; [done|].
      intros x. rewrite H2, elem_of_cons. split; [tauto|].
      intros [?|[->|?]]; auto.
    + destruct (IH (acc ++ [y])) as [H1 H2].
      { apply NoDup_app. split; [done|]. split; [|apply NoDup_singleton].
        intros x Hx ->%list_elem_of_singleton. done. }
      split; [done|]. intros x.
      rewrite H2, elem_of_app, list_elem_of_singleton, elem_of_cons. tauto.
Qed.

(** X19.  The array built from the set of the flight numbers (line 231)
    has every flight number once; it is shorter than the array of the
    flight numbers, which is the test for duplicates, exactly when some
    flight number occurs twice. *)
Theorem duplicate_test (a : list Z) :
  NoDup (set_of a)
  ∧ (∀ x, x ∈ set_of a ↔ x ∈ a)
  ∧ (has_duplicates a = true ↔ ¬ NoDup a).
Proof.
  destruct (set_add_spec a [] (NoDup_nil_2)) as [H1 H2].
  split; [exact H1|]. split.
  - intros x. unfold set_of. rewrite H2, elem_of_nil. tauto.
  - apply DuplicateFacts.has_duplicates_spec.
Qed.

Lemma starts_with_spec (p s : list ascii) :
  Str.starts_with p s = true ↔ ∃ b, s = p ++ b.
Proof.
  revert s. induction p as [|a p IH]; intros s; simpl.
  - split; [|done]. intros _. by exists s.
  - destruct s as [|c s].
    + split; [done|]. by intros (b & ?).
    + rewrite andb_true_iff, IH, Ascii.eqb_eq. split.
      * intros [-> (b & ->)]. by exists b.
      * intros (b & [= -> ->]). split; [done|]. by exists b.
Qed.

(** X20.  The tests of the first three branches of the cascade
    ([mdate.includes('Q')] and the like) hold exactly when the date is
    some characters, the searched string, and some characters. *)
Theorem includes_spec (s p : string) :
  Str.includes s p = true
  ↔ ∃ a b, list_ascii_of_string s = a ++ list_ascii_of_string p ++ b.
Proof.
  unfold Str.includes.
  set (l := list_ascii_of_string s). set (w := list_ascii_of_string p).
  clearbody l w. induction l as [|c l IH].
  - simpl. rewrite orb_false_r, starts_with_spec. split.
    + intros (b & Hb). by exists [], b.
    + intros (a & b & Hab). destruct a; [by exists b|done].
  - cbn [Str.includes_list]. rewrite orb_true_iff, IH, starts_with_spec. split.
    + intros [(b & ->)|(a & b & ->)]; [by exists [], b | by exists (c :: a), b].
    + intros ([|c' a] & b & Hab).
      * left. by exists b.
      * right. simpl in Hab. injection Hab as -> ->. by exists a, b.
Qed.

(** ** The further properties at sample inputs *)


Lemma flight_numbers_after_past_witness :
  ∃ st, Sample.nested 50 ["Iridium NEXT 6"; "GRACE-FO"]%string
          [Some "vafb_slc_4e"; Some "vafb_slc_4e"]%string
          (manifest_row Sample.rideshare_manifest) = Some st
        ∧ ∀ n, n ∈ flight_numbers st → 49 < n < 51.
Proof.
  destruct (Sample.nested 50 ["Iridium NEXT 6"; "GRACE-FO"]%string
              [Some "vafb_slc_4e"; Some "vafb_slc_4e"]%string
              (manifest_row Sample.rideshare_manifest)) as [st|] eqn:E;
    [|vm_compute in E; discriminate E].
  exists st. split; [done|]. intros n Hn.
  destruct (flight_numbers_after_past Sample.ratio Sample.moment Sample.parse
              Sample.tz Sample.format Sample.year_of Sample.unix
              Sample.toISOString Sample.rideshare_col
              Sample.rideshare_manifest 50 st n) as [Hpast Hlt].
  - vm_compute. reflexivity.
  - exact E.
  - exact Hn.
  - split.
    + apply (Hpast (Doc.mk false 49 "Telstar 19V" (Some "ccafs_slc_40"%string)));
        [apply list_elem_of_here | reflexivity].
    + vm_compute in Hlt. vm_compute. exact Hlt.
Defined.


Lemma complete_table_lengths_witness :
  length (manifest_dates Sample.three_rows) = 3%nat
  ∧ length (manifest_launchpads Sample.three_rows) = 3%nat
  ∧ length (manifest_payloads Sample.three_rows) = 3%nat.
Proof. apply SliceFacts.complete_table_lengths. reflexivity. Defined.

Lemma manifest_slices_witness :
  is_Some (manifest_dates Sample.three_rows !! 1%nat).
Proof.
  destruct (SliceFacts.manifest_slices Sample.three_rows 1)
    as (_ & _ & _ & Hp & Hl).
  apply Hl, Hp. vm_compute. eauto.
Defined.

Lemma update_flags_witness :
  ∃ st, Sample.nested 50 ["A"; "B"; "C"]%string [None; None; None]
          Sample.three_rows = Some st
        ∧ ∀ u, u ∈ promises st →
            ∃ p, tentative_max_precision (set_fields u) = Some p
                 ∧ (is_tentative (set_fields u) = false ↔ p = "hour"%string).
Proof.
  destruct (Sample.nested 50 ["A"; "B"; "C"]%string [None; None; None]
              Sample.three_rows) as [st|] eqn:E;
    [|vm_compute in E; discriminate E].
  exists st. split; [done|]. intros u Hu.
  destruct (update_flags Sample.ratio Sample.moment Sample.parse Sample.tz
              Sample.format Sample.year_of Sample.unix Sample.toISOString
              50 ["A"; "B"; "C"]%string [None; None; None]
              Sample.three_rows st u E Hu) as (p & Hp & _ & Ht & _).
  by exists p.
Defined.

Lemma update_site_and_number_witness :
  ∃ st, Sample.nested 50 ["A"; "B"; "C"]%string [None; None; None]
          Sample.three_rows = Some st
        ∧ ∀ u, u ∈ promises st →
            filter_payload_id u ∈ ["A"; "B"; "C"]%string.
Proof.
  destruct (Sample.nested 50 ["A"; "B"; "C"]%string [None; None; None]
              Sample.three_rows) as [st|] eqn:E;
    [|vm_compute in E; discriminate E].
  exists st. split; [done|]. intros u Hu.
  by destruct (update_site_and_number Sample.ratio Sample.moment Sample.parse
                 Sample.tz Sample.format Sample.year_of Sample.unix
                 Sample.toISOString 50 ["A"; "B"; "C"]%string
                 [None; None; None] Sample.three_rows st u E Hu) as [? _].
Defined.

Lemma year_tbd_also_month_witness :
  test month "2020 TBD" = true
  ∧ classify "2020 TBD" = Some (mk_classified "2020 TBD" "year" true true).
Proof. apply CompleteFacts.year_tbd_also_month. reflexivity. Defined.

Lemma patterns_exclusive_witness :
  (R_year_tbd = R_month_tbd ∧ R_month = R_month_vague)
  ∨ (R_year_tbd = R_month_vague ∧ R_month = R_month_tbd)
  ∨ (R_year_tbd = R_year_tbd ∧ R_month = R_month)
  ∨ (R_year_tbd = R_month ∧ R_month = R_year_tbd).
Proof.
  apply (CompleteFacts.patterns_exclusive R_year_tbd R_month year_tbd month
           "2020 TBD"); try reflexivity. discriminate.
Defined.


Lemma parsed_date_hour_no_bracket_witness :
  ("["%char ∉ list_ascii_of_string (parsed_date "2020 Nov 4 [14:10]"))
  ∧ ("]"%char ∉ list_ascii_of_string (parsed_date "2020 Nov 4 [14:10]")).
Proof. apply ParsedFacts.parsed_date_hour_no_bracket. reflexivity. Defined.
